(** * QR code generator: content formatting, detection, batch run and export

    A shallow embedding of the logic of [src/app/components/QRCodeGenerator.tsx]
    (the component with the [sms] content type, the WiFi payload and the EPS
    export): [formatContentByType], [detectContentType],
    [generateBatchQRCodes], the file naming of [downloadAllQRCodesAsZip] and
    [convertCanvasToEPS], together with the parts of the JavaScript runtime
    they call (string methods, regular expressions, [JSON.parse], property
    access and string conversion of parsed values). *)

From Stdlib Require Import String Ascii DecimalString.
From Stdlib Require Import NArith Bool Lia Arith List.
Import ListNotations.

Set Warnings "-register-all".

(** ** JavaScript strings

    A JavaScript string is a sequence of 16-bit code units.  Every string
    method and regular expression used by the component (none carries the
    [u] flag) works code unit by code unit. *)

Definition char16 := N.
Bind Scope N_scope with char16.
Definition jsstring := list char16.

Definition chr (a : ascii) : char16 := N_of_ascii a.

(** A string literal of the source, as code units. *)
Definition str (s : string) : jsstring := map N_of_ascii (list_ascii_of_string s).

(** The line feed written [\n] in the source's literals. *)
Definition LF : char16 := 10%N.

Definition in_range (lo hi c : char16) : bool := (lo <=? c)%N && (c <=? hi)%N.

Definition isDigit (c : char16) : bool := in_range 48 57 c.
Definition isUpperAZ (c : char16) : bool := in_range 65 90 c.
Definition isLowerAZ (c : char16) : bool := in_range 97 122 c.
Definition isAscii (c : char16) : bool := (c <? 128)%N.

Definition asciiUpper (c : char16) : char16 := if isLowerAZ c then (c - 32)%N else c.
Definition asciiLower (c : char16) : char16 := if isUpperAZ c then (c + 32)%N else c.

(** ECMAScript [WhiteSpace] and [LineTerminator] code points: what
    [String.prototype.trim] strips and what [\s] matches. *)
Definition isWhiteSpace (c : char16) : bool :=
  in_range 9 13 c || (c =? 32)%N || (c =? 160)%N || (c =? 5760)%N
  || in_range 8192 8202 c || (c =? 8232)%N || (c =? 8233)%N
  || (c =? 8239)%N || (c =? 8287)%N || (c =? 12288)%N || (c =? 65279)%N.

Fixpoint trimStart (s : jsstring) : jsstring :=
  match s with
  | [] => []
  | c :: s' => if isWhiteSpace c then trimStart s' else s
  end.

Definition trimEnd (s : jsstring) : jsstring := rev (trimStart (rev s)).

Definition trim (s : jsstring) : jsstring := trimEnd (trimStart s).

(** A string is truthy when it is not empty. *)
Definition truthyString (s : jsstring) : bool :=
  match s with [] => false | _ :: _ => true end.

Fixpoint startsWith (s p : jsstring) {struct p} : bool :=
  match p, s with
  | [], _ => true
  | _ :: _, [] => false
  | a :: p', c :: s' => (c =? a)%N && startsWith s' p'
  end.

Definition endsWith (s p : jsstring) : bool := startsWith (rev s) (rev p).

Fixpoint includes (s p : jsstring) : bool :=
  startsWith s p || match s with [] => false | _ :: s' => includes s' p end.

(** [s.slice(0, n)]. *)
Definition slice0 (n : nat) (s : jsstring) : jsstring := firstn n s.

(** [s.replace(/[class]/g, rep)] for a one-character class: every matching
    code unit is replaced, the others are kept. *)
Definition replaceClassAll (cls : char16 -> bool) (rep s : jsstring) : jsstring :=
  flat_map (fun c => if cls c then rep else [c]) s.

(** [s.split(',')[1]]: the text between the first and the second comma,
    [None] (undefined) when [s] has no comma. *)
Fixpoint untilComma (s : jsstring) : jsstring :=
  match s with
  | [] => []
  | c :: s' => if (c =? 44)%N then [] else c :: untilComma s'
  end.

Fixpoint splitCommaSecond (s : jsstring) : option jsstring :=
  match s with
  | [] => None
  | c :: s' => if (c =? 44)%N then Some (untilComma s') else splitCommaSecond s'
  end.

(** String conversion of a non-negative integer below 10^21 (a canvas
    dimension, a pixel coordinate): its decimal digits. *)
Definition natToString (n : nat) : jsstring := str (NilEmpty.string_of_uint (Nat.to_uint n)).

(** ** Regular expressions

    The patterns of the source use literals, character classes,
    alternation, [?], [+], [{m,n}] and the anchors [^] and [$]; whether such a
    pattern has a match is a question of language membership, decided here
    with derivatives. *)

Module RegExp.

Inductive regex : Type :=
| Never
| Eps
| Class (p : char16 -> bool)
| Seq (r1 r2 : regex)
| Alt (r1 r2 : regex)
| Star (r : regex).

Definition Opt (r : regex) : regex := Alt r Eps.
Definition Plus (r : regex) : regex := Seq r (Star r).

Fixpoint Times (n : nat) (r : regex) : regex :=
  match n with
  | O => Eps
  | S n' => Seq r (Times n' r)
  end.

(** [r{lo,hi}] *)
Definition Repeat (lo hi : nat) (r : regex) : regex :=
  Seq (Times lo r) (Times (hi - lo) (Opt r)).

(** A literal character. *)
Definition Chr (a : ascii) : regex := Class (fun c => (c =? chr a)%N).

(** A literal ASCII character under the [i] flag.  Canonicalization maps a
    code unit to its upper-case form, and never maps a code unit of 128 or
    more to one below 128: only the two ASCII cases of the letter match. *)
Definition ChrI (a : ascii) : regex :=
  Class (fun c => (asciiUpper c =? asciiUpper (chr a))%N).

Fixpoint Lit (s : string) : regex :=
  match s with
  | EmptyString => Eps
  | String a s' => Seq (Chr a) (Lit s')
  end.

Fixpoint LitI (s : string) : regex :=
  match s with
  | EmptyString => Eps
  | String a s' => Seq (ChrI a) (LitI s')
  end.

Fixpoint nullable (r : regex) : bool :=
  match r with
  | Never => false
  | Eps => true
  | Class _ => false
  | Seq r1 r2 => nullable r1 && nullable r2
  | Alt r1 r2 => nullable r1 || nullable r2
  | Star _ => true
  end.

Fixpoint deriv (c : char16) (r : regex) : regex :=
  match r with
  | Never => Never
  | Eps => Never
  | Class p => if p c then Eps else Never
  | Seq r1 r2 =>
      if nullable r1 then Alt (Seq (deriv c r1) r2) (deriv c r2)
      else Seq (deriv c r1) r2
  | Alt r1 r2 => Alt (deriv c r1) (deriv c r2)
  | Star r' => Seq (deriv c r') (Star r')
  end.

(** [/^r$/.test(s)]: the whole of [s] matches. *)
Fixpoint matchesWhole (r : regex) (s : jsstring) : bool :=
  match s with
  | [] => nullable r
  | c :: s' => matchesWhole (deriv c r) s'
  end.

(** [/^r/.test(s)]: some prefix of [s] matches. *)
Fixpoint matchesPrefix (r : regex) (s : jsstring) : bool :=
  nullable r ||
  match s with
  | [] => false
  | c :: s' => matchesPrefix (deriv c r) s'
  end.

(** The strings a pattern denotes. *)
Inductive Lang : regex -> jsstring -> Prop :=
| LEps : Lang Eps []
| LClass p c : p c = true -> Lang (Class p) [c]
| LSeq r1 r2 s1 s2 : Lang r1 s1 -> Lang r2 s2 -> Lang (Seq r1 r2) (s1 ++ s2)
| LAltL r1 r2 s : Lang r1 s -> Lang (Alt r1 r2) s
| LAltR r1 r2 s : Lang r2 s -> Lang (Alt r1 r2) s
| LStarNil r : Lang (Star r) []
| LStarApp r s1 s2 : Lang r s1 -> Lang (Star r) s2 -> Lang (Star r) (s1 ++ s2).

End RegExp.

(** ** JSON.parse

    The values [JSON.parse] builds.  A number keeps the token it was written
    as; an object keeps its members in source order (a repeated key is read
    at its last occurrence). *)

Inductive JSValue : Type :=
| JNull
| JBool (b : bool)
| JNumber (token : jsstring)
| JString (s : jsstring)
| JArray (elements : list JSValue)
| JObject (members : list (jsstring * JSValue)).

Module JSON.

(** The JSON grammar (ECMA-404) is LL(1): the text is read one code unit at a
    time with a stack of the containers that are still open. *)

Inductive Frame : Type :=
| FArray (done : list JSValue)
| FObjectKey (done : list (jsstring * JSValue))
| FObjectValue (done : list (jsstring * JSValue)) (key : jsstring).

Inductive NumState : Type :=
| NMinus | NZero | NInt | NDot | NFrac | NExp | NExpSign | NExpDigits.

Inductive Mode : Type :=
| ExpectValue
| ExpectValueOrClose
| ExpectKeyOrClose
| ExpectKey
| ExpectColon
| AfterValue
| Done (v : JSValue)
| InString (isKey : bool) (acc : jsstring)
| InEscape (isKey : bool) (acc : jsstring)
| InUnicode (isKey : bool) (acc : jsstring) (seen : nat) (code : N)
| InNumber (st : NumState) (acc : jsstring)
| InLiteral (rest : jsstring) (v : JSValue).

Definition PState : Type := (Mode * list Frame)%type.

(** JSON white space: tab, line feed, carriage return, space. *)
Definition isJSONSpace (c : char16) : bool :=
  (c =? 9)%N || (c =? 10)%N || (c =? 13)%N || (c =? 32)%N.

Definition hexValue (c : char16) : option N :=
  if isDigit c then Some (c - 48)%N
  else if in_range 65 70 c then Some (c - 55)%N
  else if in_range 97 102 c then Some (c - 87)%N
  else None.

(** A value is complete: it goes into the innermost open container, or is the
    result when none is open. *)
Definition pushValue (v : JSValue) (stack : list Frame) : option PState :=
  match stack with
  | [] => Some (Done v, [])
  | FArray done :: st => Some (AfterValue, FArray (v :: done) :: st)
  | FObjectValue done key :: st => Some (AfterValue, FObjectKey ((key, v) :: done) :: st)
  | FObjectKey _ :: _ => None
  end.

Definition closeString (isKey : bool) (s : jsstring) (stack : list Frame) : option PState :=
  if isKey then
    match stack with
    | FObjectKey done :: st => Some (ExpectColon, FObjectValue done s :: st)
    | _ => None
    end
  else pushValue (JString s) stack.

(** After a complete value: a separator, a closing bracket, or white space. *)
Definition stepAfterValue (stack : list Frame) (c : char16) : option PState :=
  if isJSONSpace c then Some (AfterValue, stack)
  else if (c =? 44)%N then
    match stack with
    | FArray _ :: _ => Some (ExpectValue, stack)
    | FObjectKey _ :: _ => Some (ExpectKey, stack)
    | _ => None
    end
  else if (c =? 93)%N then
    match stack with
    | FArray done :: st => pushValue (JArray (rev done)) st
    | _ => None
    end
  else if (c =? 125)%N then
    match stack with
    | FObjectKey done :: st => pushValue (JObject (rev done)) st
    | _ => None
    end
  else None.

(** After the result: only white space may follow. *)
Definition stepDone (v : JSValue) (c : char16) : option PState :=
  if isJSONSpace c then Some (Done v, []) else None.

Definition stepAfter (st : PState) (c : char16) : option PState :=
  match st with
  | (AfterValue, stack) => stepAfterValue stack c
  | (Done v, []) => stepDone v c
  | _ => None
  end.

Definition stepValue (self : Mode) (stack : list Frame) (c : char16) : option PState :=
  if isJSONSpace c then Some (self, stack)
  else if (c =? 123)%N then Some (ExpectKeyOrClose, FObjectKey [] :: stack)
  else if (c =? 91)%N then Some (ExpectValueOrClose, FArray [] :: stack)
  else if (c =? 34)%N then Some (InString false [], stack)
  else if (c =? 45)%N then Some (InNumber NMinus [c], stack)
  else if (c =? 48)%N then Some (InNumber NZero [c], stack)
  else if in_range 49 57 c then Some (InNumber NInt [c], stack)
  else if (c =? 116)%N then Some (InLiteral (str "rue") (JBool true), stack)
  else if (c =? 102)%N then Some (InLiteral (str "alse") (JBool false), stack)
  else if (c =? 110)%N then Some (InLiteral (str "ull") JNull, stack)
  else None.

(** The number token is complete when a code unit that cannot extend it is
    met; that code unit is then read after the value. *)
Definition endNumber (acc : jsstring) (stack : list Frame) (c : char16) : option PState :=
  match pushValue (JNumber (rev acc)) stack with
  | Some st => stepAfter st c
  | None => None
  end.

Definition isExpMark (c : char16) : bool := (c =? 101)%N || (c =? 69)%N.

Definition stepNumber (st : NumState) (acc : jsstring) (stack : list Frame) (c : char16)
  : option PState :=
  match st with
  | NMinus =>
      if (c =? 48)%N then Some (InNumber NZero (c :: acc), stack)
      else if in_range 49 57 c then Some (InNumber NInt (c :: acc), stack)
      else None
  | NZero =>
      if (c =? 46)%N then Some (InNumber NDot (c :: acc), stack)
      else if isExpMark c then Some (InNumber NExp (c :: acc), stack)
      else endNumber acc stack c
  | NInt =>
      if isDigit c then Some (InNumber NInt (c :: acc), stack)
      else if (c =? 46)%N then Some (InNumber NDot (c :: acc), stack)
      else if isExpMark c then Some (InNumber NExp (c :: acc), stack)
      else endNumber acc stack c
  | NDot =>
      if isDigit c then Some (InNumber NFrac (c :: acc), stack) else None
  | NFrac =>
      if isDigit c then Some (InNumber NFrac (c :: acc), stack)
      else if isExpMark c then Some (InNumber NExp (c :: acc), stack)
      else endNumber acc stack c
  | NExp =>
      if (c =? 43)%N || (c =? 45)%N then Some (InNumber NExpSign (c :: acc), stack)
      else if isDigit c then Some (InNumber NExpDigits (c :: acc), stack)
      else None
  | NExpSign =>
      if isDigit c then Some (InNumber NExpDigits (c :: acc), stack) else None
  | NExpDigits =>
      if isDigit c then Some (InNumber NExpDigits (c :: acc), stack)
      else endNumber acc stack c
  end.

Definition numberComplete (st : NumState) : bool :=
  match st with
  | NZero | NInt | NFrac | NExpDigits => true
  | NMinus | NDot | NExp | NExpSign => false
  end.

Definition escapeChar (c : char16) : option char16 :=
  if (c =? 34)%N || (c =? 92)%N || (c =? 47)%N then Some c
  else if (c =? 98)%N then Some 8%N
  else if (c =? 102)%N then Some 12%N
  else if (c =? 110)%N then Some 10%N
  else if (c =? 114)%N then Some 13%N
  else if (c =? 116)%N then Some 9%N
  else None.

Definition step (st : PState) (c : char16) : option PState :=
  let (mode, stack) := st in
  match mode with
  | ExpectValue => stepValue ExpectValue stack c
  | ExpectValueOrClose =>
      if (c =? 93)%N then
        match stack with
        | FArray done :: st' => pushValue (JArray (rev done)) st'
        | _ => None
        end
      else stepValue ExpectValueOrClose stack c
  | ExpectKeyOrClose =>
      if isJSONSpace c then Some (ExpectKeyOrClose, stack)
      else if (c =? 34)%N then Some (InString true [], stack)
      else if (c =? 125)%N then
        match stack with
        | FObjectKey done :: st' => pushValue (JObject (rev done)) st'
        | _ => None
        end
      else None
  | ExpectKey =>
      if isJSONSpace c then Some (ExpectKey, stack)
      else if (c =? 34)%N then Some (InString true [], stack)
      else None
  | ExpectColon =>
      if isJSONSpace c then Some (ExpectColon, stack)
      else if (c =? 58)%N then Some (ExpectValue, stack)
      else None
  | AfterValue => stepAfterValue stack c
  | Done v => match stack with [] => stepDone v c | _ :: _ => None end
  | InString isKey acc =>
      if (c =? 34)%N then closeString isKey (rev acc) stack
      else if (c =? 92)%N then Some (InEscape isKey acc, stack)
      else if (c <? 32)%N then None
      else Some (InString isKey (c :: acc), stack)
  | InEscape isKey acc =>
      if (c =? 117)%N then Some (InUnicode isKey acc 0 0%N, stack)
      else
        match escapeChar c with
        | Some e => Some (InString isKey (e :: acc), stack)
        | None => None
        end
  | InUnicode isKey acc seen code =>
      match hexValue c with
      | Some d =>
          let code' := (16 * code + d)%N in
          if Nat.eqb seen 3 then Some (InString isKey (code' :: acc), stack)
          else Some (InUnicode isKey acc (S seen) code', stack)
      | None => None
      end
  | InNumber ns acc => stepNumber ns acc stack c
  | InLiteral rest v =>
      match rest with
      | [] => None
      | x :: rest' =>
          if (c =? x)%N then
            match rest' with
            | [] => pushValue v stack
            | _ :: _ => Some (InLiteral rest' v, stack)
            end
          else None
      end
  end.

Fixpoint run (st : PState) (s : jsstring) : option PState :=
  match s with
  | [] => Some st
  | c :: s' =>
      match step st c with
      | Some st' => run st' s'
      | None => None
      end
  end.

(** At the end of the text the result must be complete; a number at top
    level ends with the text. *)
Definition finish (st : PState) : option JSValue :=
  match st with
  | (Done v, []) => Some v
  | (InNumber ns acc, []) => if numberComplete ns then Some (JNumber (rev acc)) else None
  | _ => None
  end.

(** [JSON.parse(text)]: the value, or [None] when a SyntaxError is thrown. *)
Definition parse (text : jsstring) : option JSValue :=
  match run (ExpectValue, []) text with
  | Some st => finish st
  | None => None
  end.

End JSON.

(** ** The runtime the component runs on

    Three parts of ECMAScript are left to the runtime: the double-precision
    reading of a JSON number token (whether it is zero, and its string
    conversion), [String.prototype.toLowerCase] outside ASCII, which the
    component never meets, and the room on the call stack.  On a string of
    ASCII code units [toLowerCase] lowers [A]-[Z] and keeps the rest.

    The string conversion of an array calls itself for every array it holds
    ([Array.prototype.toString] calls [join], which converts each element),
    so it needs call stack in proportion to the nesting; [stackRoom] is the
    number of arrays, one inside the other, that the stack has room for when
    the formatter converts a field.  An array nested deeper makes the
    conversion throw a RangeError.  [JSON.parse] itself keeps the containers
    that are still open in a stack of its own, like [JSON.run] above, and
    reads a text however deep its nesting. *)

Class JSRuntime : Type := {
  NumberIsZero : jsstring -> bool;
  NumberToString : jsstring -> jsstring;
  toLowerCase : jsstring -> jsstring;
  toLowerCase_ascii :
    forall s, forallb isAscii s = true -> toLowerCase s = map asciiLower s;
  stackRoom : nat
}.

Fixpoint eqbString (a b : jsstring) : bool :=
  match a, b with
  | [], [] => true
  | x :: a', y :: b' => (x =? y)%N && eqbString a' b'
  | _, _ => false
  end.

(** The own property [key] of an object's members: the last one written. *)
Fixpoint lookupMember (key : jsstring) (members : list (jsstring * JSValue)) : option JSValue :=
  match members with
  | [] => None
  | (k, v) :: rest =>
      match lookupMember key rest with
      | Some v' => Some v'
      | None => if eqbString k key then Some v else None
      end
  end.

(** [value.key] for a name that no standard prototype defines ([ssid],
    [password], [encryption]): [Some (Some v)] for the own property of an
    object, [Some None] ([undefined]) on an object without it and on every
    array, string, number or boolean, and [None] (a TypeError) on [null]. *)
Definition getProperty (value : JSValue) (key : jsstring) : option (option JSValue) :=
  match value with
  | JNull => None
  | JObject members => Some (lookupMember key members)
  | _ => Some None
  end.

Definition joinComma (parts : list jsstring) : jsstring :=
  match parts with
  | [] => []
  | p :: rest => p ++ flat_map (fun q => chr "," :: q) rest
  end.

Section Values.
Context {rt : JSRuntime}.

(** ToBoolean. *)
Definition toBoolean (v : JSValue) : bool :=
  match v with
  | JNull => false
  | JBool b => b
  | JNumber token => negb (NumberIsZero token)
  | JString s => truthyString s
  | JArray _ | JObject _ => true
  end.

(** ToString of a parsed value when the call stack has room for [room]
    nested arrays; [None] when it throws.  An array joins its elements with
    commas ([null] gives the empty string), converting each one with the
    room that is left; with no room left the conversion throws a RangeError.
    A plain object gives [[object Object]] through
    [Object.prototype.toString], unless it has a member named [toString]: a
    parsed member is never callable, [valueOf] gives back the object, and
    the conversion throws a TypeError. *)
Fixpoint toStringWithin (room : nat) (v : JSValue) {struct v} : option jsstring :=
  match v with
  | JNull => Some (str "null")
  | JBool true => Some (str "true")
  | JBool false => Some (str "false")
  | JNumber token => Some (NumberToString token)
  | JString s => Some s
  | JArray elements =>
      match room with
      | O => None
      | S room' =>
          let fix parts (es : list JSValue) : option (list jsstring) :=
            match es with
            | [] => Some []
            | e :: es' =>
                match (match e with
                       | JNull => Some []
                       | _ => toStringWithin room' e
                       end) with
                | None => None
                | Some s =>
                    match parts es' with
                    | None => None
                    | Some ss => Some (s :: ss)
                    end
                end
            end in
          option_map joinComma (parts elements)
      end
  | JObject members =>
      match lookupMember (str "toString") members with
      | Some _ => None
      | None => Some (str "[object Object]")
      end
  end.

(** ToString as the formatter meets it, on the runtime's call stack. *)
Definition toStringJS (v : JSValue) : option jsstring := toStringWithin stackRoom v.

(** [`${value.key || fallback}`]: the text of the property when it is truthy,
    of the fallback otherwise; [None] when reading or converting throws. *)
Definition fieldOr (value : JSValue) (key : string) (fallback : string) : option jsstring :=
  match getProperty value (str key) with
  | None => None
  | Some None => Some (str fallback)
  | Some (Some v) => if toBoolean v then toStringJS v else Some (str fallback)
  end.

End Values.

(** ** The component *)

Inductive ContentType : Type := text | url | email | phone | sms | wifi.
Inductive FileFormat : Type := png | eps.
Inductive Mode : Type := single | batch | yandex_ultima.

Definition contentTypeName (t : ContentType) : jsstring :=
  match t with
  | text => str "text"
  | url => str "url"
  | email => str "email"
  | phone => str "phone"
  | sms => str "sms"
  | wifi => str "wifi"
  end.

Definition fileFormatName (f : FileFormat) : jsstring :=
  match f with
  | png => str "png"
  | eps => str "eps"
  end.

Module BatchEntry.
Record t : Type := mk { content : jsstring; type : ContentType }.
End BatchEntry.

Module BatchQRCode.
Record t : Type := mk {
  content : jsstring;
  type : ContentType;
  dataUrl : jsstring;
  formattedContent : jsstring
}.
End BatchQRCode.

(** [/^https?:\/\//i] *)
Definition httpPattern : RegExp.regex :=
  RegExp.Seq (RegExp.LitI "http")
    (RegExp.Seq (RegExp.Opt (RegExp.ChrI "s")) (RegExp.LitI "://")).

(** [/^(https?:\/\/|www\.)/i] *)
Definition urlPattern : RegExp.regex :=
  RegExp.Alt httpPattern (RegExp.LitI "www.").

(** [[^\s@]] *)
Definition notSpaceNorAt (c : char16) : bool :=
  negb (isWhiteSpace c || (c =? chr "@")%N).

(** [/^[^\s@]+@[^\s@]+\.[^\s@]+$/] *)
Definition emailPattern : RegExp.regex :=
  RegExp.Seq (RegExp.Plus (RegExp.Class notSpaceNorAt))
    (RegExp.Seq (RegExp.Chr "@")
       (RegExp.Seq (RegExp.Plus (RegExp.Class notSpaceNorAt))
          (RegExp.Seq (RegExp.Chr ".") (RegExp.Plus (RegExp.Class notSpaceNorAt))))).

(** [[0-9\s\(\)\-]] *)
Definition phoneChar (c : char16) : bool :=
  isDigit c || isWhiteSpace c || (c =? chr "(")%N || (c =? chr ")")%N || (c =? chr "-")%N.

(** [/^\+?[0-9\s\(\)\-]{8,20}$/] *)
Definition phonePattern : RegExp.regex :=
  RegExp.Seq (RegExp.Opt (RegExp.Chr "+")) (RegExp.Repeat 8 20 (RegExp.Class phoneChar)).

Definition detectContentType (content : jsstring) : ContentType :=
  if RegExp.matchesPrefix urlPattern content then url
  else if RegExp.matchesWhole emailPattern content then email
  else if RegExp.matchesWhole phonePattern content then phone
  else if (startsWith content (str "{") && endsWith content (str "}"))
          && includes content (str "ssid") then wifi
  else text.

Section Formatter.
Context {rt : JSRuntime}.

Definition formatContentByType (content : jsstring) (type : ContentType) : jsstring :=
  match type with
  | url =>
      if negb (RegExp.matchesPrefix httpPattern content)
      then str "https://" ++ content
      else content
  | email => str "mailto:" ++ content
  | phone => str "tel:" ++ content
  | sms => str "sms:" ++ content
  | wifi =>
      match JSON.parse content with
      | None => content
      | Some wifiData =>
          match fieldOr wifiData "encryption" "WPA",
                fieldOr wifiData "ssid" "",
                fieldOr wifiData "password" "" with
          | Some encryption, Some ssid, Some password =>
              str "WIFI:T:" ++ encryption ++ str ";S:" ++ ssid
              ++ str ";P:" ++ password ++ str ";;"
          | _, _, _ => content
          end
      end
  | text => content
  end.

End Formatter.

(** The part of the component's state that the batch run and the archive
    export read or write. *)
Record State : Type := mkState {
  mode : Mode;
  batchEntries : list BatchEntry.t;
  batchCodes : list BatchQRCode.t;
  error : jsstring;
  isGenerating : bool;
  hasNewEntries : bool;
  isDownloadingZip : bool;
  useContentAsFilename : bool;
  fileFormat : FileFormat
}.

Definition isYandexUltima (m : Mode) : bool :=
  match m with yandex_ultima => true | _ => false end.

Definition promoLinkPrefix : jsstring :=
  str "https://8jxm.adj.st/addpromocode?adj_t=rf7a0p4_8cgc7kg&ref=qr&code=".

Section BatchRun.
Context {rt : JSRuntime}.

(** [QRCode.toDataURL(payload, { width: 800, margin: 2 })] of the external
    encoder: the data URL, or [None] when the call throws. *)
Variable toDataURL : jsstring -> option jsstring.

(** The payload of one entry: the promo link in the Yandex Ultima mode, the
    formatter's result otherwise. *)
Definition entryPayload (m : Mode) (entry : BatchEntry.t) : jsstring :=
  if isYandexUltima m
  then promoLinkPrefix ++ BatchEntry.content entry
  else formatContentByType (BatchEntry.content entry) (BatchEntry.type entry).

(** The loop of [generateBatchQRCodes] over the entries left, with the
    results pushed so far.  It gives the payloads handed to the encoder, in
    call order, and the results, or [None] when an encoder call threw. *)
Fixpoint batchLoop (m : Mode) (entries : list BatchEntry.t) (batchResults : list BatchQRCode.t)
  : list jsstring * option (list BatchQRCode.t) :=
  match entries with
  | [] => ([], Some batchResults)
  | entry :: rest =>
      if truthyString (trim (BatchEntry.content entry)) then
        let formattedContent := entryPayload m entry in
        match toDataURL formattedContent with
        | None => ([formattedContent], None)
        | Some dataUrl =>
            let (calls, result) :=
              batchLoop m rest
                (batchResults ++
                   [BatchQRCode.mk (BatchEntry.content entry) (BatchEntry.type entry)
                      dataUrl formattedContent]) in
            (formattedContent :: calls, result)
        end
      else batchLoop m rest batchResults
  end.

(** [generateBatchQRCodes]: the state when the function has run, and the
    encoder calls it made. *)
Definition generateBatchQRCodes (st : State) : State * list jsstring :=
  let hasContent :=
    existsb (fun entry => negb (eqbString (trim (BatchEntry.content entry)) []))
      (batchEntries st) in
  if negb hasContent then
    (mkState (mode st) (batchEntries st) (batchCodes st)
       (str "Please enter content for at least one QR code")
       (isGenerating st) (hasNewEntries st) (isDownloadingZip st)
       (useContentAsFilename st) (fileFormat st), [])
  else
    match batchLoop (mode st) (batchEntries st) [] with
    | (calls, Some batchResults) =>
        (mkState (mode st) (batchEntries st) batchResults [] false false
           (isDownloadingZip st) (useContentAsFilename st) (fileFormat st), calls)
    | (calls, None) =>
        (mkState (mode st) (batchEntries st) (batchCodes st)
           (str "Failed to generate batch QR codes") false false
           (isDownloadingZip st) (useContentAsFilename st) (fileFormat st), calls)
    end.

End BatchRun.

(** ** EPS export *)

(** A canvas as [convertCanvasToEPS] reads it: its size, and what
    [ctx?.getImageData(0, 0, width, height)] gives, the RGBA bytes in row-major
    order, or [None] when no image data can be read. *)
Record HTMLCanvasElement : Type := mkCanvas {
  width : nat;
  height : nat;
  imageData : option (list N)
}.

Definition epsHeader (width height : nat) : jsstring :=
  str "%!PS-Adobe-3.0 EPSF-3.0" ++ [LF]
  ++ (str "%%BoundingBox: 0 0 " ++ natToString width ++ str " " ++ natToString height ++ [LF])
  ++ (str "/scanline { % x y scanline" ++ [LF])
  ++ (str "  /y exch def" ++ [LF])
  ++ (str "  /x exch def" ++ [LF])
  ++ (str "  x y moveto" ++ [LF])
  ++ (str "  x 1 add y lineto" ++ [LF])
  ++ (str "  stroke" ++ [LF])
  ++ (str "} def" ++ [LF])
  ++ (str "0.5 setlinewidth" ++ [LF])
  ++ (str "0 setgray" ++ [LF]).

(** [`${x} ${height - y} scanline\n`] *)
Definition scanlineCall (x y' : nat) : jsstring :=
  natToString x ++ str " " ++ natToString y' ++ str " scanline" ++ [LF].

(** [alpha > 128] for [alpha = data[i + 3]]; reading past the end gives
    [undefined], which is not greater than 128. *)
Definition alphaAbove128 (data : list N) (i : nat) : bool :=
  match nth_error data (i + 3) with
  | Some alpha => (128 <? alpha)%N
  | None => false
  end.

(** The inner loop over [x], for one row. *)
Definition epsRow (data : list N) (width height y : nat) (eps0 : jsstring) : jsstring :=
  fold_left
    (fun eps x =>
       let i := (y * width + x) * 4 in
       if alphaAbove128 data i then eps ++ scanlineCall x (height - y) else eps)
    (seq 0 width) eps0.

(** The outer loop over [y]. *)
Definition epsRows (data : list N) (width height : nat) (eps0 : jsstring) : jsstring :=
  fold_left (fun eps y => epsRow data width height y eps) (seq 0 height) eps0.

(** [convertCanvasToEPS]: the EPS text, or [None] when the promise is
    rejected (no image data). *)
Definition convertCanvasToEPS (canvas : HTMLCanvasElement) : option jsstring :=
  match imageData canvas with
  | None => None
  | Some data =>
      let eps := epsHeader (width canvas) (height canvas) in
      let eps := epsRows data (width canvas) (height canvas) eps in
      Some (eps ++ (str "showpage" ++ [LF]))
  end.

(** ** Archive export *)

(** [/[^a-z0-9]/gi]: with the [i] flag the class [a-z0-9] holds the ASCII
    letters of both cases and the digits, and nothing else. *)
Definition notAlphanumeric (c : char16) : bool :=
  negb (isLowerAZ c || isUpperAZ c || isDigit c).

(** What [zip.file] is given as data: base64 text (the part of the data URL
    after its first comma, [None] when there is no comma) or EPS text. *)
Inductive ZipData : Type :=
| Base64Data (data : option jsstring)
| TextData (data : jsstring).

Section ArchiveExport.
Context {rt : JSRuntime}.

(** Loading a data URL into an image and drawing it on a fresh canvas;
    [None] when the image fails to load. *)
Variable drawImage : jsstring -> option HTMLCanvasElement.

(** [.replace(/[^a-z0-9]/gi, '_').toLowerCase().slice(0, 30)] *)
Definition sanitizedContent (s : jsstring) : jsstring :=
  slice0 30 (toLowerCase (replaceClassAll notAlphanumeric (str "_") s)).

(** The file name chosen for one code. *)
Definition zipFilename (st : State) (code : BatchQRCode.t) : jsstring :=
  if useContentAsFilename st || isYandexUltima (mode st) then
    sanitizedContent (BatchQRCode.content code) ++ str "." ++ fileFormatName (fileFormat st)
  else
    sanitizedContent (BatchQRCode.formattedContent code) ++ str "_"
    ++ contentTypeName (BatchQRCode.type code) ++ str "." ++ fileFormatName (fileFormat st).

(** The loop of [downloadAllQRCodesAsZip]: the [zip.file(filename, data)]
    calls made, in order, and whether the loop ran to its end ([false] when
    an image could not be loaded or converted). *)
Fixpoint zipLoop (st : State) (codes : list BatchQRCode.t) : list (jsstring * ZipData) * bool :=
  match codes with
  | [] => ([], true)
  | code :: rest =>
      let filename := zipFilename st code in
      match fileFormat st with
      | png =>
          let base64Data := splitCommaSecond (BatchQRCode.dataUrl code) in
          let (files, ok) := zipLoop st rest in
          ((filename, Base64Data base64Data) :: files, ok)
      | eps =>
          match drawImage (BatchQRCode.dataUrl code) with
          | None => ([], false)
          | Some canvas =>
              match convertCanvasToEPS canvas with
              | None => ([], false)
              | Some epsContent =>
                  let (files, ok) := zipLoop st rest in
                  ((filename, TextData epsContent) :: files, ok)
              end
          end
      end
  end.

(** [downloadAllQRCodesAsZip], up to the hand-over to the archive library:
    nothing happens without codes. *)
Definition downloadAllQRCodesAsZip (st : State) : list (jsstring * ZipData) * bool :=
  match batchCodes st with
  | [] => ([], true)
  | _ :: _ => zipLoop st (batchCodes st)
  end.

End ArchiveExport.

(** ** The earlier revision of the formatter

    The first copy of the component in the same source file (it has no [sms]
    type) guards the [mailto:] and [tel:] prefixes and writes a WiFi entry
    back as JSON text. *)

Module EarlierRevision.

Inductive ContentType : Type := text | url | email | phone | wifi.

Section Formatter.

(** [JSON.stringify] of a parsed value. *)
Variable JSON_stringify : JSValue -> jsstring.

Definition formatContentByType (content : jsstring) (type : ContentType) : jsstring :=
  match type with
  | url =>
      if RegExp.matchesPrefix httpPattern content then content
      else str "https://" ++ content
  | email =>
      if startsWith content (str "mailto:") then content else str "mailto:" ++ content
  | phone =>
      if startsWith content (str "tel:") then content else str "tel:" ++ content
  | wifi =>
      match JSON.parse content with
      | Some wifiData => JSON_stringify wifiData
      | None => content
      end
  | text => content
  end.

End Formatter.

End EarlierRevision.

(** ** The rest of the component

    The single-code form, the handlers that edit the batch entries, the text
    file upload, the individual downloads and the primary button of the
    batch form. *)

(** The state of the component beside [State]: the single-code form, the
    upload indicators, and whether [canvasRef.current] is set. *)
Module Component.
Record t : Type := mk {
  core : State;
  text : jsstring;
  contentType : ContentType;
  qrCodeUrl : jsstring;
  isGeneratingSingle : bool;
  isUploading : bool;
  uploadedItemsCount : Mode -> nat;
  showFileGuide : bool;
  canvasRef : bool
}.
End Component.

Definition setError (e : jsstring) (st : State) : State :=
  mkState (mode st) (batchEntries st) (batchCodes st) e (isGenerating st)
    (hasNewEntries st) (isDownloadingZip st) (useContentAsFilename st) (fileFormat st).

Definition setBatchEntries (entries : list BatchEntry.t) (st : State) : State :=
  mkState (mode st) entries (batchCodes st) (error st) (isGenerating st)
    (hasNewEntries st) (isDownloadingZip st) (useContentAsFilename st) (fileFormat st).

Definition setBatchCodes (codes : list BatchQRCode.t) (st : State) : State :=
  mkState (mode st) (batchEntries st) codes (error st) (isGenerating st)
    (hasNewEntries st) (isDownloadingZip st) (useContentAsFilename st) (fileFormat st).

Definition setHasNewEntries (b : bool) (st : State) : State :=
  mkState (mode st) (batchEntries st) (batchCodes st) (error st) (isGenerating st)
    b (isDownloadingZip st) (useContentAsFilename st) (fileFormat st).

Definition setMode (m : Mode) (st : State) : State :=
  mkState m (batchEntries st) (batchCodes st) (error st) (isGenerating st)
    (hasNewEntries st) (isDownloadingZip st) (useContentAsFilename st) (fileFormat st).

Definition withCore (st : State) (c : Component.t) : Component.t :=
  Component.mk st (Component.text c) (Component.contentType c) (Component.qrCodeUrl c)
    (Component.isGeneratingSingle c) (Component.isUploading c)
    (Component.uploadedItemsCount c) (Component.showFileGuide c) (Component.canvasRef c).

Definition eqbMode (a b : Mode) : bool :=
  match a, b with
  | single, single | batch, batch | yandex_ultima, yandex_ultima => true
  | _, _ => false
  end.

(** The entry every form starts from: [{ content: '', type: 'text' }]. *)
Definition blankEntry : BatchEntry.t := BatchEntry.mk [] text.

(** The preview under the single-code input when the type is [url]:
    [text.match(/^https?:\/\//i) ? text : `https://${text}`]. *)
Definition urlPreview (input : jsstring) : jsstring :=
  if RegExp.matchesPrefix httpPattern input then input else str "https://" ++ input.

Section SingleCode.
Context {rt : JSRuntime}.

(** [QRCode.toCanvas(canvasRef.current, payload, ...)]: [true] when the call
    returns, [false] when it throws. *)
Variable toCanvas : jsstring -> bool.

(** [QRCode.toDataURL(payload, ...)], as in the batch run. *)
Variable toDataURL : jsstring -> option jsstring.

Definition generateQRCode (c : Component.t) : Component.t :=
  match Component.text c with
  | [] => withCore (setError (str "Please enter some content") (Component.core c)) c
  | _ :: _ =>
      let contentToEncode := Component.text c in
      let formattedContent := formatContentByType contentToEncode (Component.contentType c) in
      let failed :=
        Component.mk (setError (str "Failed to generate QR code") (Component.core c))
          (Component.text c) (Component.contentType c) (Component.qrCodeUrl c)
          false (Component.isUploading c) (Component.uploadedItemsCount c)
          (Component.showFileGuide c) (Component.canvasRef c) in
      if Component.canvasRef c && negb (toCanvas formattedContent) then failed
      else
        match toDataURL formattedContent with
        | None => failed
        | Some dataUrl =>
            Component.mk (setError [] (Component.core c))
              (Component.text c) (Component.contentType c) dataUrl
              false (Component.isUploading c) (Component.uploadedItemsCount c)
              (Component.showFileGuide c) (Component.canvasRef c)
        end
  end.

End SingleCode.

(** [handleTextChange], for the value of the input event. *)
Definition handleTextChange (inputValue : jsstring) (c : Component.t) : Component.t :=
  Component.mk (Component.core c) inputValue
    (if truthyString (trim inputValue) then detectContentType inputValue
     else Component.contentType c)
    (Component.qrCodeUrl c) (Component.isGeneratingSingle c) (Component.isUploading c)
    (Component.uploadedItemsCount c) (Component.showFileGuide c) (Component.canvasRef c).

Definition resetSingleQR (c : Component.t) : Component.t :=
  Component.mk (setError [] (Component.core c)) [] (Component.contentType c) []
    (Component.isGeneratingSingle c) (Component.isUploading c)
    (Component.uploadedItemsCount c) (Component.showFileGuide c) (Component.canvasRef c).

(** ** Editing the batch entries *)

Definition addBatchEntry (st : State) : State :=
  setHasNewEntries true (setBatchEntries (batchEntries st ++ [blankEntry]) st).

(** [newEntries.splice(index, 1)] for an index of the rendered list: past
    the end nothing is removed. *)
Definition spliceOne {A : Type} (index : nat) (l : list A) : list A :=
  firstn index l ++ skipn (S index) l.

Definition removeBatchEntry (index : nat) (st : State) : State :=
  if 1 <? length (batchEntries st)
  then setBatchEntries (spliceOne index (batchEntries st)) st
  else st.

(** The [field] and [value] of [updateBatchEntry]; the value of the [type]
    field is taken to be a content type, as the cast in the source does. *)
Inductive EntryUpdate : Type :=
| UpdateContent (value : jsstring)
| UpdateType (value : ContentType).

Definition applyUpdate (u : EntryUpdate) (entry : BatchEntry.t) : BatchEntry.t :=
  match u with
  | UpdateContent value => BatchEntry.mk value (BatchEntry.type entry)
  | UpdateType value => BatchEntry.mk (BatchEntry.content entry) value
  end.

Fixpoint assignAt (index : nat) (u : EntryUpdate) (entries : list BatchEntry.t)
  : option (list BatchEntry.t) :=
  match entries, index with
  | [], _ => None
  | entry :: rest, O => Some (applyUpdate u entry :: rest)
  | entry :: rest, S i => option_map (cons entry) (assignAt i u rest)
  end.

(** [updateBatchEntry]: [None] when [newEntries[index]] is undefined and the
    assignment throws a TypeError, which leaves the state as it was. *)
Definition updateBatchEntry (index : nat) (u : EntryUpdate) (st : State) : option State :=
  match assignAt index u (batchEntries st) with
  | None => None
  | Some newEntries => Some (setHasNewEntries true (setBatchEntries newEntries st))
  end.

Definition noUploads : Mode -> nat := fun _ => 0.

Definition setUploaded (m : Mode) (n : nat) (counts : Mode -> nat) : Mode -> nat :=
  fun m' => if eqbMode m' m then n else counts m'.

Definition resetBatchQR (c : Component.t) : Component.t :=
  Component.mk
    (setHasNewEntries true
       (setError [] (setBatchCodes [] (setBatchEntries [blankEntry] (Component.core c)))))
    (Component.text c) (Component.contentType c) (Component.qrCodeUrl c)
    (Component.isGeneratingSingle c) (Component.isUploading c) noUploads
    (Component.showFileGuide c) (Component.canvasRef c).

Definition toggleMode (newMode : Mode) (c : Component.t) : Component.t :=
  let st := setBatchCodes [] (setError [] (setMode newMode (Component.core c))) in
  let st :=
    match newMode with
    | batch | yandex_ultima => setBatchEntries [blankEntry] st
    | single => st
    end in
  Component.mk st (Component.text c) (Component.contentType c) []
    (Component.isGeneratingSingle c) (Component.isUploading c) noUploads
    (Component.showFileGuide c) (Component.canvasRef c).

(** ** Text file upload *)

(** [content.split(/\r?\n/)]: the text is cut at every line feed, together
    with the carriage return just before it when there is one. *)
Fixpoint splitLinesFrom (current : jsstring) (s : jsstring) : list jsstring :=
  match s with
  | [] => [rev current]
  | c :: rest =>
      if (c =? 10)%N then rev current :: splitLinesFrom [] rest
      else if (c =? 13)%N then
        match rest with
        | d :: rest' =>
            if (d =? 10)%N then rev current :: splitLinesFrom [] rest'
            else splitLinesFrom (c :: current) rest
        | [] => splitLinesFrom (c :: current) rest
        end
      else splitLinesFrom (c :: current) rest
  end.

Definition splitLines (content : jsstring) : list jsstring := splitLinesFrom [] content.

(** The [onload] handler of the text file reader, for the text read. *)
Definition textFileLoaded (content : jsstring) (c : Component.t) : Component.t :=
  let stopped e :=
    Component.mk (setError e (Component.core c))
      (Component.text c) (Component.contentType c) (Component.qrCodeUrl c)
      (Component.isGeneratingSingle c) false (Component.uploadedItemsCount c)
      (Component.showFileGuide c) (Component.canvasRef c) in
  match content with
  | [] => stopped (str "File appears to be empty")
  | _ :: _ =>
      let lines :=
        filter (fun line => negb (eqbString (trim line) [])) (splitLines content) in
      match lines with
      | [] => stopped (str "No content found in file")
      | _ :: _ =>
          let newEntries := map (fun line => BatchEntry.mk (trim line) text) lines in
          Component.mk (setBatchEntries newEntries (Component.core c))
            (Component.text c) (Component.contentType c) (Component.qrCodeUrl c)
            (Component.isGeneratingSingle c) false
            (setUploaded (mode (Component.core c)) (length lines)
               (Component.uploadedItemsCount c))
            (Component.showFileGuide c) (Component.canvasRef c)
      end
  end.

(** The [onload] handler of the spreadsheet reader from the point where
    [contentRows] is known: the trimmed text of the first cell of every row
    the spreadsheet library gave and the filter kept. *)
Definition excelRowsLoaded (contentRows : list jsstring) (c : Component.t) : Component.t :=
  match contentRows with
  | [] =>
      Component.mk (setError (str "No content found in Excel file") (Component.core c))
        (Component.text c) (Component.contentType c) (Component.qrCodeUrl c)
        (Component.isGeneratingSingle c) false (Component.uploadedItemsCount c)
        (Component.showFileGuide c) (Component.canvasRef c)
  | _ :: _ =>
      let newEntries := map (fun content => BatchEntry.mk content text) contentRows in
      Component.mk (setBatchEntries newEntries (Component.core c))
        (Component.text c) (Component.contentType c) (Component.qrCodeUrl c)
        (Component.isGeneratingSingle c) false
        (setUploaded (mode (Component.core c)) (length contentRows)
           (Component.uploadedItemsCount c))
        (Component.showFileGuide c) (Component.canvasRef c)
  end.

(** ** Individual downloads *)

Section Downloads.
Context {rt : JSRuntime}.

(** [downloadQRCode]: the [download] name and the [href] of the link that is
    clicked, [None] when there is no code to download. *)
Definition downloadQRCode (c : Component.t) : option (jsstring * jsstring) :=
  match Component.qrCodeUrl c with
  | [] => None
  | _ :: _ =>
      let st := Component.core c in
      Some (if useContentAsFilename st && truthyString (Component.text c)
            then sanitizedContent (Component.text c) ++ str "." ++ fileFormatName (fileFormat st)
            else str "qrcode." ++ fileFormatName (fileFormat st),
            Component.qrCodeUrl c)
  end.

(** [downloadBatchQRCode]: the [download] name and the [href]. *)
Definition downloadBatchQRCode (st : State) (dataUrl content : jsstring) (type : ContentType)
  : jsstring * jsstring :=
  (if useContentAsFilename st || isYandexUltima (mode st) then
     sanitizedContent content ++ str "." ++ fileFormatName (fileFormat st)
   else
     let typePrefix :=
       match type with
       | text => []
       | _ => contentTypeName type ++ str "_"
       end in
     let filename :=
       toLowerCase (replaceClassAll notAlphanumeric (str "_") (slice0 20 content)) in
     str "qrcode_" ++ typePrefix ++ filename ++ str "." ++ fileFormatName (fileFormat st),
   dataUrl).

End Downloads.

(** ** The primary button of the batch form *)

Inductive PrimaryAction : Type := RunGenerate | RunReset.

(** [onClick={hasNewEntries ? generateBatchQRCodes : resetBatchQR}] *)
Definition primaryAction (st : State) : PrimaryAction :=
  if hasNewEntries st then RunGenerate else RunReset.

(** The label of the button. *)
Definition primaryLabel (st : State) : jsstring :=
  match batchCodes st with
  | [] => str "Generate all"
  | _ :: _ => if hasNewEntries st then str "Generate Some More" else str "Clear All"
  end.

(** The entries the batch form can hold: it starts from one blank entry, and
    every handler the form calls gives the next list from an earlier one.
    The form edits the [content] field only. *)
Inductive FormEntries : list BatchEntry.t -> Prop :=
| FormInitial : FormEntries [blankEntry]
| FormAdd st : FormEntries (batchEntries st) -> FormEntries (batchEntries (addBatchEntry st))
| FormRemove index st :
    FormEntries (batchEntries st) -> FormEntries (batchEntries (removeBatchEntry index st))
| FormEdit index value st st' :
    FormEntries (batchEntries st) ->
    updateBatchEntry index (UpdateContent value) st = Some st' ->
    FormEntries (batchEntries st')
| FormUpload content c :
    FormEntries (batchEntries (Component.core c)) ->
    FormEntries (batchEntries (Component.core (textFileLoaded content c)))
| FormSpreadsheet contentRows c :
    FormEntries (batchEntries (Component.core c)) ->
    FormEntries (batchEntries (Component.core (excelRowsLoaded contentRows c)))
| FormReset c :
    FormEntries (batchEntries (Component.core c)) ->
    FormEntries (batchEntries (Component.core (resetBatchQR c)))
| FormToggle newMode c :
    FormEntries (batchEntries (Component.core c)) ->
    FormEntries (batchEntries (Component.core (toggleMode newMode c))).

(** The characters of a generated file name: lower-case letters, digits,
    the underscore and the dot. *)
Definition isFileNameChar (c : char16) : bool :=
  isLowerAZ c || isDigit c || (c =? 95)%N || (c =? 46)%N.

(** The EPS text of a code in the archive export: its image is loaded, drawn
    on a canvas and converted; [None] when that fails. *)
Definition epsOf (drawImage : jsstring -> option HTMLCanvasElement) (code : BatchQRCode.t)
  : option jsstring :=
  match drawImage (BatchQRCode.dataUrl code) with
  | None => None
  | Some canvas => convertCanvasToEPS canvas
  end.

(** ** The specification's wording, for comparison *)

Module Spec.

(** "strip every character outside [a-z0-9] case-insensitively, lowercase,
    truncate to 30 characters" *)
Definition sanitizeStripping (s : jsstring) : jsstring :=
  firstn 30 (map asciiLower (filter (fun c => negb (notAlphanumeric c)) s)).

(** The same with every such character replaced by an underscore instead. *)
Definition sanitizeReplacing (s : jsstring) : jsstring :=
  firstn 30 (map (fun c => if notAlphanumeric c then chr "_" else asciiLower c) s).

(** The archive file name as the specification derives it, for a given way
    of sanitizing. *)
Definition archiveName (sanitize : jsstring -> jsstring) (st : State) (code : BatchQRCode.t)
  : jsstring :=
  if useContentAsFilename st || isYandexUltima (mode st) then
    sanitize (BatchQRCode.content code) ++ str "." ++ fileFormatName (fileFormat st)
  else
    sanitize (BatchQRCode.formattedContent code) ++ str "_"
    ++ contentTypeName (BatchQRCode.type code) ++ str "." ++ fileFormatName (fileFormat st).

(** "case-insensitively starts with": a prefix equal to the literal up to
    the case of ASCII letters. *)
Definition equalIgnoringCase (a b : jsstring) : Prop :=
  map asciiUpper a = map asciiUpper b.

Definition StartsWithIgnoringCase (s : jsstring) (lit : string) : Prop :=
  exists p t, s = p ++ t /\ equalIgnoringCase p (str lit).

Definition HasHttpScheme (s : jsstring) : Prop :=
  StartsWithIgnoringCase s "http://" \/ StartsWithIgnoringCase s "https://".

(** "Matches [^(https?://|www\.)] case-insensitive" *)
Definition LooksLikeUrl (s : jsstring) : Prop :=
  HasHttpScheme s \/ StartsWithIgnoringCase s "www.".

(** A non-empty run without white space and without [@]. *)
Definition Plain (part : jsstring) : Prop :=
  part <> [] /\ Forall (fun c => isWhiteSpace c = false /\ c <> chr "@") part.

(** "a simple [local@domain.tld] shape" *)
Definition LooksLikeEmail (s : jsstring) : Prop :=
  exists local domain tld,
    s = local ++ chr "@" :: domain ++ chr "." :: tld
    /\ Plain local /\ Plain domain /\ Plain tld.

Definition PhoneCharacter (c : char16) : Prop :=
  isDigit c = true \/ isWhiteSpace c = true
  \/ c = chr "(" \/ c = chr ")" \/ c = chr "-".

(** "Matches [^\+?[0-9\s()\-]{8,20}$]" *)
Definition LooksLikePhone (s : jsstring) : Prop :=
  exists body,
    (s = body \/ s = chr "+" :: body)
    /\ 8 <= length body <= 20 /\ Forall PhoneCharacter body.

(** "Starts with [{], ends with [}], and contains the substring [ssid]" *)
Definition LooksLikeWifi (s : jsstring) : Prop :=
  (exists t, s = str "{" ++ t) /\ (exists t, s = t ++ str "}")
  /\ (exists a b, s = a ++ str "ssid" ++ b).

(** The members a parsed value has to read: those of an object, none for
    an array, a string, a number or a boolean. *)
Definition membersOf (value : JSValue) : list (jsstring * JSValue) :=
  match value with
  | JObject members => members
  | _ => []
  end.

(** The text a field contributes: its default when the field is missing or
    falsy, its string conversion when it is truthy. *)
Inductive FieldText {rt : JSRuntime} (members : list (jsstring * JSValue))
  (key default : string) : jsstring -> Prop :=
| FieldMissing :
    lookupMember (str key) members = None ->
    FieldText members key default (str default)
| FieldFalsy v :
    lookupMember (str key) members = Some v -> toBoolean v = false ->
    FieldText members key default (str default)
| FieldTruthy v out :
    lookupMember (str key) members = Some v -> toBoolean v = true ->
    toStringJS v = Some out ->
    FieldText members key default out.

(** A value that cannot be converted to a string when the call stack has
    room for [room] nested arrays: an object that has a member named
    [toString], an array when no room is left, and an array that holds a
    value that cannot be converted with the room that is left. *)
Inductive Unconvertible : nat -> JSValue -> Prop :=
| OwnToString room members v :
    lookupMember (str "toString") members = Some v ->
    Unconvertible room (JObject members)
| NestedTooDeep elements :
    Unconvertible 0 (JArray elements)
| HoldsUnconvertible room elements e :
    In e elements -> Unconvertible room e ->
    Unconvertible (S room) (JArray elements).

(** A truthy field that cannot be converted to a string. *)
Definition FieldThrows {rt : JSRuntime} (members : list (jsstring * JSValue))
  (key : string) : Prop :=
  exists v, lookupMember (str key) members = Some v
            /\ toBoolean v = true /\ Unconvertible stackRoom v.

Definition wifiPayload (encryption ssid password : jsstring) : jsstring :=
  str "WIFI:T:" ++ encryption ++ str ";S:" ++ ssid ++ str ";P:" ++ password ++ str ";;".

(** "trimmed content is empty": the content holds white space only. *)
Definition isBlank (s : jsstring) : bool := forallb isWhiteSpace s.

(** The entries a batch run keeps. *)
Definition retained (entries : list BatchEntry.t) : list BatchEntry.t :=
  filter (fun entry => negb (isBlank (BatchEntry.content entry))) entries.

(** The pixels of a [width] by [height] bitmap in raster order: row after
    row from the top, each row from the left. *)
Definition rasterOrder (width height : nat) : list (nat * nat) :=
  flat_map (fun y => map (fun x => (x, y)) (seq 0 width)) (seq 0 height).

(** The alpha byte of the pixel at column [x] of row [y]: the fourth of its
    four bytes. *)
Definition alphaAt (data : list N) (width : nat) (pixel : nat * nat) : option N :=
  nth_error data (4 * (snd pixel * width + fst pixel) + 3).

Definition isOpaque (data : list N) (width : nat) (pixel : nat * nat) : bool :=
  match alphaAt data width pixel with
  | Some alpha => (128 <? alpha)%N
  | None => false
  end.

(** The path-primitive invocations of a bitmap, one for each opaque pixel in
    raster order, with the row counted from the bottom. *)
Definition scanlineCalls (data : list N) (width height : nat) : list jsstring :=
  map (fun pixel => natToString (fst pixel) ++ str " " ++ natToString (height - snd pixel)
                    ++ str " scanline" ++ [LF])
    (filter (isOpaque data width) (rasterOrder width height)).

End Spec.

(** What ties a kept entry to the code made from it. *)
Definition MadeFrom {rt : JSRuntime} (toDataURL : jsstring -> option jsstring)
  (m : Mode) (entry : BatchEntry.t) (code : BatchQRCode.t) : Prop :=
  BatchQRCode.content code = BatchEntry.content entry
  /\ BatchQRCode.type code = BatchEntry.type entry
  /\ BatchQRCode.formattedContent code = entryPayload m entry
  /\ toDataURL (BatchQRCode.formattedContent code) = Some (BatchQRCode.dataUrl code).

(** ** Writing examples *)

(** A text written with ['] where the source has a double quote. *)
Definition quoted (s : string) : jsstring :=
  map (fun c => if (c =? 39)%N then 34%N else c) (str s).

(** A runtime to run examples on: its number operations are exact on plain
    integer tokens, which is all the examples contain, and its call stack
    has room for a thousand nested arrays. *)
#[refine] Instance exampleRuntime : JSRuntime := {|
  NumberIsZero := fun token => forallb (fun c => negb (in_range 49 57 c)) token;
  NumberToString := fun token => token;
  toLowerCase := map asciiLower;
  stackRoom := 1000
|}.
Proof. reflexivity. Defined.

(** An object whose [ssid] is an object with a member named [toString]: the
    text parses, the field is truthy, and its string conversion throws. *)
Definition ssidWithOwnToString : jsstring := quoted "{'ssid':{'toString':1}}".

(** An object whose [password] is an array that holds an object with a
    member named [toString]. *)
Definition passwordHoldingOwnToString : jsstring := quoted "{'password':[{'toString':null}]}".

(** An empty array inside [n] further arrays: [n + 1] arrays, one inside the
    other. *)
Fixpoint nestedArray (n : nat) : JSValue :=
  match n with
  | O => JArray []
  | S n' => JArray [nestedArray n']
  end.

(** [v] inside [n] arrays, counted from the inside. *)
Fixpoint nestedIn (n : nat) (v : JSValue) : JSValue :=
  match n with
  | O => v
  | S n' => nestedIn n' (JArray [v])
  end.

(** The text of an object whose [ssid] is [nestedArray n]. *)
Definition ssidNestedArray (n : nat) : jsstring :=
  quoted "{'ssid':" ++ repeat (chr "[") (S n) ++ repeat (chr "]") (S n) ++ str "}".

(** A run in the promo-link mode over one entry. *)
Definition promoRunState : State :=
  mkState yandex_ultima [BatchEntry.mk (str "PROMO1") text] [] [] false true false false png.

(** An encoder that accepts every payload. *)
Definition acceptingEncoder (payload : jsstring) : option jsstring :=
  Some (str "data:image/png;base64," ++ payload).

(** A run in the batch mode over three entries, the second one blank. *)
Definition batchRunState : State :=
  mkState batch
    [BatchEntry.mk (str "example.com") url; BatchEntry.mk (str "   ") text;
     BatchEntry.mk (str "a@b.co") email]
    [] [] false true false false png.

(** A 2 by 2 canvas whose four pixels are black and fully opaque. *)
Definition opaque2x2 : HTMLCanvasElement :=
  mkCanvas 2 2
    (Some [0; 0; 0; 255; 0; 0; 0; 255; 0; 0; 0; 255; 0; 0; 0; 255]%N).

(** An archive export that names the files after the raw content. *)
Definition spacedNameState : State :=
  mkState batch [] [BatchQRCode.mk (str "a b") text (str "data:image/png;base64,AAAA") (str "a b")]
    [] false false false true png.

(** An archive export with the default naming. *)
Definition defaultNameState : State :=
  mkState batch []
    [BatchQRCode.mk (str "Example.com/Path") url (str "data:image/png;base64,AAAA")
       (str "https://Example.com/Path")]
    [] false false false false png.

(** The form after one entry was added to the initial one and both were
    edited, the first to a web address. *)
Definition editedFormState : State :=
  mkState batch [BatchEntry.mk (str "www.example.com") text; BatchEntry.mk (str "a@b.co") text]
    [] [] false true false false png.

(** An encoder that rejects the payload [b] and accepts every other one. *)
Definition rejectsB (payload : jsstring) : option jsstring :=
  if eqbString payload (str "b") then None else Some payload.

(** An export in the EPS format of two codes, the second of which has an
    image that cannot be loaded. *)
Definition epsExportState : State :=
  mkState batch []
    [BatchQRCode.mk (str "a") text (str "first") (str "a");
     BatchQRCode.mk (str "b") text (str "second") (str "b")]
    [] false false false true eps.

(** A loader that can draw the first image only. *)
Definition loadsFirstOnly (dataUrl : jsstring) : option HTMLCanvasElement :=
  if eqbString dataUrl (str "first") then Some opaque2x2 else None.

(** * Properties *)

(** ** Strings *)

Lemma startsWith_spec (s p : jsstring) :
  startsWith s p = true <-> exists t, s = p ++ t.
Proof.
  revert s; induction p as [|a p IH]; intros s; simpl.
  - split; [intros _; now exists s | reflexivity].
  - destruct s as [|c s]; simpl.
    + split; [discriminate | intros [t H]; discriminate].
    + rewrite andb_true_iff, N.eqb_eq, IH. split.
      * intros [-> [t ->]]. now exists t.
      * intros [t H]. injection H as -> ->. split; [reflexivity | now exists t].
Qed.

Lemma endsWith_spec (s p : jsstring) :
  endsWith s p = true <-> exists t, s = t ++ p.
Proof.
  unfold endsWith. rewrite startsWith_spec. split.
  - intros [t H]. exists (rev t).
    rewrite <- (rev_involutive s), H, rev_app_distr, rev_involutive. reflexivity.
  - intros [t ->]. exists (rev t). now rewrite rev_app_distr.
Qed.

Lemma includes_spec (s p : jsstring) :
  includes s p = true <-> exists a b, s = a ++ p ++ b.
Proof.
  induction s as [|c s IH]; simpl.
  - rewrite orb_false_r, startsWith_spec. split.
    + intros [t H]. now exists [], t.
    + intros [a [b H]]. destruct a; [now exists b | discriminate].
  - rewrite orb_true_iff, startsWith_spec, IH. split.
    + intros [[t H] | [a [b H]]].
      * now exists [], t.
      * exists (c :: a), b. now rewrite H.
    + intros [a [b H]]. destruct a as [|x a].
      * left. now exists b.
      * right. injection H as _ ->. now exists a, b.
Qed.

Lemma truthyString_spec (s : jsstring) : truthyString s = true <-> s <> [].
Proof. destruct s; simpl; split; congruence. Qed.

Lemma eqbString_spec (a b : jsstring) : eqbString a b = true <-> a = b.
Proof.
  revert b; induction a as [|x a IH]; intros [|y b]; simpl; try (split; congruence).
  rewrite andb_true_iff, N.eqb_eq, IH. split; [intros [-> ->]; reflexivity | intros H; now injection H].
Qed.

Lemma str_app (a b : string) : str (a ++ b) = str a ++ str b.
Proof.
  unfold str. induction a as [|x a IH]; simpl; [reflexivity | now rewrite IH].
Qed.

(** ** Regular expressions: the matcher decides the language *)

Module RegExpFacts.
Import RegExp.

Lemma nullable_Lang (r : regex) : nullable r = true <-> Lang r [].
Proof.
  split.
  - induction r; simpl; intros H; try discriminate.
    + constructor.
    + apply andb_true_iff in H as [H1 H2].
      change (@nil char16) with (@nil char16 ++ []). constructor; auto.
    + apply orb_true_iff in H as [H|H]; [apply LAltL | apply LAltR]; auto.
    + constructor.
  - intros H. remember [] as s eqn:E. induction H; simpl; try reflexivity; try discriminate.
    + apply app_eq_nil in E as [-> ->]. now rewrite IHLang1, IHLang2.
    + now rewrite IHLang.
    + rewrite IHLang by assumption. apply orb_true_r.
Qed.

Lemma deriv_sound (c : char16) (r : regex) (s : jsstring) :
  Lang (deriv c r) s -> Lang r (c :: s).
Proof.
  revert s; induction r; simpl; intros s H.
  - inversion H.
  - inversion H.
  - destruct (p c) eqn:E; inversion H; subst. now constructor.
  - destruct (nullable r1) eqn:E.
    + inversion H; subst.
      * match goal with X : Lang (Seq _ _) _ |- _ => inversion X; subst end.
        change (c :: s1 ++ s2) with ((c :: s1) ++ s2). constructor; auto.
      * change (c :: s) with ([] ++ c :: s). constructor; auto.
        now apply nullable_Lang.
    + inversion H; subst.
      change (c :: s1 ++ s2) with ((c :: s1) ++ s2). constructor; auto.
  - inversion H; subst; [apply LAltL | apply LAltR]; auto.
  - inversion H; subst.
    change (c :: s1 ++ s2) with ((c :: s1) ++ s2). constructor; auto.
Qed.

Lemma deriv_complete (c : char16) (r : regex) (s : jsstring) :
  Lang r (c :: s) -> Lang (deriv c r) s.
Proof.
  intros H. remember (c :: s) as cs eqn:E. revert s E.
  induction H; intros t E; simpl; try discriminate.
  - injection E as -> <-. rewrite H. constructor.
  - destruct s1 as [|x s1]; simpl in E.
    + subst s2. apply nullable_Lang in H. rewrite H. apply LAltR. auto.
    + injection E as -> <-.
      destruct (nullable r1); [apply LAltL|]; constructor; auto.
  - apply LAltL; auto.
  - apply LAltR; auto.
  - destruct s1 as [|x s1]; simpl in E.
    + apply (IHLang2 t E).
    + injection E as -> <-. constructor; auto.
Qed.

Lemma matchesWhole_Lang (r : regex) (s : jsstring) :
  matchesWhole r s = true <-> Lang r s.
Proof.
  revert r; induction s as [|c s IH]; intros r; simpl.
  - apply nullable_Lang.
  - rewrite IH. split; [apply deriv_sound | apply deriv_complete].
Qed.

Lemma matchesPrefix_Lang (r : regex) (s : jsstring) :
  matchesPrefix r s = true <-> exists p q, s = p ++ q /\ Lang r p.
Proof.
  revert r; induction s as [|c s IH]; intros r; simpl.
  - rewrite orb_false_r, nullable_Lang. split.
    + intros H. now exists [], [].
    + intros [p [q [E H]]]. symmetry in E. apply app_eq_nil in E as [-> _]. exact H.
  - rewrite orb_true_iff, nullable_Lang, IH. split.
    + intros [H | [p [q [-> H]]]].
      * now exists [], (c :: s).
      * exists (c :: p), q. split; [reflexivity | now apply deriv_sound].
    + intros [p [q [E H]]]. destruct p as [|x p].
      * now left.
      * injection E as <- ->. right. exists p, q. split; [reflexivity | now apply deriv_complete].
Qed.

Lemma Lang_Eps (s : jsstring) : Lang Eps s <-> s = [].
Proof. split; [intros H; now inversion H | intros ->; constructor]. Qed.

Lemma Lang_Class (p : char16 -> bool) (s : jsstring) :
  Lang (Class p) s <-> exists c, s = [c] /\ p c = true.
Proof.
  split.
  - intros H; inversion H; subst. eauto.
  - intros [c [-> H]]. now constructor.
Qed.

Lemma Lang_Seq (r1 r2 : regex) (s : jsstring) :
  Lang (Seq r1 r2) s <-> exists s1 s2, s = s1 ++ s2 /\ Lang r1 s1 /\ Lang r2 s2.
Proof.
  split.
  - intros H; inversion H; subst. eauto.
  - intros [s1 [s2 [-> [H1 H2]]]]. now constructor.
Qed.

Lemma Lang_Alt (r1 r2 : regex) (s : jsstring) :
  Lang (Alt r1 r2) s <-> Lang r1 s \/ Lang r2 s.
Proof.
  split.
  - intros H; inversion H; subst; auto.
  - intros [H|H]; [apply LAltL | apply LAltR]; auto.
Qed.

Lemma Lang_Opt (r : regex) (s : jsstring) : Lang (Opt r) s <-> Lang r s \/ s = [].
Proof. unfold Opt. now rewrite Lang_Alt, Lang_Eps. Qed.

Lemma Lang_Star_Class (p : char16 -> bool) (s : jsstring) :
  Lang (Star (Class p)) s <-> forallb p s = true.
Proof.
  split.
  - intros H. remember (Star (Class p)) as r eqn:E.
    induction H; try discriminate; [reflexivity|].
    injection E as ->. inversion H; subst. simpl.
    rewrite IHLang2 by reflexivity.
    match goal with X : p _ = true |- _ => now rewrite X end.
  - induction s as [|c s IH]; simpl; intros H; [constructor|].
    apply andb_true_iff in H as [Hc Hs].
    change (c :: s) with ([c] ++ s). constructor; [now constructor | auto].
Qed.

Lemma Lang_Plus_Class (p : char16 -> bool) (s : jsstring) :
  Lang (Plus (Class p)) s <-> s <> [] /\ forallb p s = true.
Proof.
  unfold Plus. rewrite Lang_Seq. split.
  - intros [s1 [s2 [-> [H1 H2]]]]. apply Lang_Class in H1 as [c [-> Hc]].
    apply Lang_Star_Class in H2. simpl. rewrite Hc, H2. split; [discriminate | reflexivity].
  - intros [Hne H]. destruct s as [|c s]; [congruence|]. simpl in H.
    apply andb_true_iff in H as [Hc Hs]. exists [c], s.
    split; [reflexivity|]. split; [apply Lang_Class; eauto | now apply Lang_Star_Class].
Qed.

Lemma Lang_Times_Class (p : char16 -> bool) (n : nat) (s : jsstring) :
  Lang (Times n (Class p)) s <-> length s = n /\ forallb p s = true.
Proof.
  revert s; induction n as [|n IH]; intros s; simpl.
  - rewrite Lang_Eps. split.
    + intros ->. now split.
    + intros [H _]. now apply length_zero_iff_nil.
  - rewrite Lang_Seq. split.
    + intros [s1 [s2 [-> [H1 H2]]]]. apply Lang_Class in H1 as [c [-> Hc]].
      apply IH in H2 as [Hl Hs]. simpl. rewrite Hc, Hs, Hl. now split.
    + intros [Hl H]. destruct s as [|c s]; [discriminate|]. simpl in *.
      apply andb_true_iff in H as [Hc Hs]. exists [c], s.
      split; [reflexivity|]. split; [apply Lang_Class; eauto | apply IH; split; [lia | auto]].
Qed.

Lemma Lang_Times_Opt_Class (p : char16 -> bool) (n : nat) (s : jsstring) :
  Lang (Times n (Opt (Class p))) s <-> length s <= n /\ forallb p s = true.
Proof.
  revert s; induction n as [|n IH]; intros s; simpl.
  - rewrite Lang_Eps. split.
    + intros ->. now split.
    + intros [H _]. apply length_zero_iff_nil. lia.
  - rewrite Lang_Seq. split.
    + intros [s1 [s2 [-> [H1 H2]]]]. apply IH in H2 as [Hl Hs].
      apply Lang_Opt in H1 as [H1 | ->].
      * apply Lang_Class in H1 as [c [-> Hc]]. simpl. rewrite Hc, Hs. split; [lia | reflexivity].
      * simpl. split; [lia | assumption].
    + intros [Hl H]. destruct s as [|c s].
      * exists [], []. split; [reflexivity|]. split; [apply Lang_Opt; now right|].
        apply IH. simpl. split; [lia | reflexivity].
      * simpl in *. apply andb_true_iff in H as [Hc Hs]. exists [c], s.
        split; [reflexivity|]. split.
        -- apply Lang_Opt. left. apply Lang_Class. eauto.
        -- apply IH. split; [lia | auto].
Qed.

Lemma Lang_Repeat_Class (p : char16 -> bool) (lo hi : nat) (s : jsstring) :
  lo <= hi ->
  Lang (Repeat lo hi (Class p)) s <-> (lo <= length s <= hi /\ forallb p s = true).
Proof.
  intros Hle. unfold Repeat. rewrite Lang_Seq. split.
  - intros [s1 [s2 [-> [H1 H2]]]].
    apply Lang_Times_Class in H1 as [L1 P1]. apply Lang_Times_Opt_Class in H2 as [L2 P2].
    rewrite length_app, forallb_app, P1, P2. split; [lia | reflexivity].
  - intros [[L1 L2] P]. exists (firstn lo s), (skipn lo s).
    rewrite <- (firstn_skipn lo s) in P. rewrite forallb_app in P.
    apply andb_true_iff in P as [P1 P2].
    split; [now rewrite firstn_skipn|]. split.
    + apply Lang_Times_Class. split; [rewrite length_firstn; lia | assumption].
    + apply Lang_Times_Opt_Class. split; [rewrite length_skipn; lia | assumption].
Qed.

Lemma Lang_ChrI (a : ascii) (s : jsstring) :
  Lang (ChrI a) s <-> exists c, s = [c] /\ asciiUpper c = asciiUpper (chr a).
Proof.
  unfold ChrI. rewrite Lang_Class. split; intros [c [-> H]]; exists c; split; auto.
  - now apply N.eqb_eq.
  - now apply N.eqb_eq.
Qed.

Lemma Lang_LitI (lit : string) (s : jsstring) :
  Lang (LitI lit) s <-> map asciiUpper s = map asciiUpper (str lit).
Proof.
  revert s; induction lit as [|a lit IH]; intros s; simpl.
  - rewrite Lang_Eps. split; [intros ->; reflexivity|].
    intros H. destruct s; [reflexivity | discriminate].
  - rewrite Lang_Seq. split.
    + intros [s1 [s2 [-> [H1 H2]]]]. apply Lang_ChrI in H1 as [c [-> Hc]].
      apply IH in H2. simpl. unfold str in *. simpl. now rewrite Hc, H2.
    + intros H. destruct s as [|c s]; [discriminate|].
      unfold str in H; simpl in H. injection H as Hc Hs.
      exists [c], s. split; [reflexivity|]. split.
      * apply Lang_ChrI. eauto.
      * apply IH. exact Hs.
Qed.

End RegExpFacts.

(** ** The patterns of the component, read as shapes of strings *)

Section Patterns.
Import RegExp RegExpFacts Spec.

Lemma prefix_LitI (lit : string) (s : jsstring) :
  (exists p q, s = p ++ q /\ Lang (LitI lit) p) <-> StartsWithIgnoringCase s lit.
Proof.
  unfold StartsWithIgnoringCase, equalIgnoringCase.
  split; intros [p [q [E H]]]; exists p, q; (split; [exact E | now apply Lang_LitI]).
Qed.

Lemma Lang_httpPattern (p : jsstring) :
  Lang httpPattern p <-> equalIgnoringCase p (str "http://") \/ equalIgnoringCase p (str "https://").
Proof.
  unfold httpPattern, equalIgnoringCase. rewrite Lang_Seq. split.
  - intros [s1 [s2 [-> [H1 H2]]]]. apply Lang_LitI in H1.
    apply Lang_Seq in H2 as [o [t [-> [Ho Ht]]]]. apply Lang_LitI in Ht.
    apply Lang_Opt in Ho as [Ho | ->].
    + apply Lang_ChrI in Ho as [c [-> Hc]]. right.
      rewrite !map_app, H1, Ht. simpl. rewrite Hc. reflexivity.
    + left. rewrite !map_app, H1, Ht. reflexivity.
  - intros [H | H].
    + assert (L : length p = 7) by (apply (f_equal (@length _)) in H; now rewrite length_map in H).
      do 8 (destruct p as [|? p]; try discriminate L).
      injection H as H1 H2 H3 H4 H5 H6 H7.
      exists [c; c0; c1; c2], ([] ++ [c3; c4; c5]). split; [reflexivity|]. split.
      * apply (proj2 (Lang_LitI "http" _)). simpl. now rewrite H1, H2, H3, H4.
      * constructor; [apply Lang_Opt; now right|].
        apply (proj2 (Lang_LitI "://" _)). simpl. now rewrite H5, H6, H7.
    + assert (L : length p = 8) by (apply (f_equal (@length _)) in H; now rewrite length_map in H).
      do 9 (destruct p as [|? p]; try discriminate L).
      injection H as H1 H2 H3 H4 H5 H6 H7 H8.
      exists [c; c0; c1; c2], ([c3] ++ [c4; c5; c6]). split; [reflexivity|]. split.
      * apply (proj2 (Lang_LitI "http" _)). simpl. now rewrite H1, H2, H3, H4.
      * constructor; [apply Lang_Opt; left; apply Lang_ChrI; eauto|].
        apply (proj2 (Lang_LitI "://" _)). simpl. now rewrite H6, H7, H8.
Qed.

Lemma matches_httpPattern (s : jsstring) :
  matchesPrefix httpPattern s = true <-> HasHttpScheme s.
Proof.
  rewrite matchesPrefix_Lang. unfold HasHttpScheme, StartsWithIgnoringCase. split.
  - intros [p [q [E H]]]. apply Lang_httpPattern in H as [H|H]; [left | right]; eauto.
  - intros [[p [q [E H]]] | [p [q [E H]]]]; exists p, q; (split; [exact E|]);
      apply Lang_httpPattern; auto.
Qed.

Lemma matches_urlPattern (s : jsstring) :
  matchesPrefix urlPattern s = true <-> LooksLikeUrl s.
Proof.
  unfold LooksLikeUrl. rewrite <- matches_httpPattern, <- prefix_LitI.
  rewrite !matchesPrefix_Lang. unfold urlPattern. split.
  - intros [p [q [E H]]]. apply Lang_Alt in H as [H|H]; [left | right]; eauto.
  - intros [[p [q [E H]]] | [p [q [E H]]]]; exists p, q; (split; [exact E|]);
      apply Lang_Alt; auto.
Qed.

Lemma forallb_notSpaceNorAt (part : jsstring) :
  forallb notSpaceNorAt part = true
  <-> Forall (fun c => isWhiteSpace c = false /\ c <> chr "@") part.
Proof.
  rewrite forallb_forall, Forall_forall.
  split; intros H c Hc; specialize (H c Hc); unfold notSpaceNorAt in *.
  - apply negb_true_iff, orb_false_iff in H as [H1 H2]. apply N.eqb_neq in H2. auto.
  - destruct H as [H1 H2]. apply N.eqb_neq in H2. now rewrite H1, H2.
Qed.

Lemma Lang_plain (part : jsstring) :
  Lang (Plus (Class notSpaceNorAt)) part <-> Plain part.
Proof. unfold Plain. now rewrite Lang_Plus_Class, forallb_notSpaceNorAt. Qed.

Lemma Lang_Chr (a : ascii) (s : jsstring) : Lang (Chr a) s <-> s = [chr a].
Proof.
  unfold Chr. rewrite Lang_Class. split.
  - intros [c [-> H]]. apply N.eqb_eq in H. now subst.
  - intros ->. exists (chr a). split; [reflexivity | apply N.eqb_refl].
Qed.

Lemma matches_emailPattern (s : jsstring) :
  matchesWhole emailPattern s = true <-> LooksLikeEmail s.
Proof.
  rewrite matchesWhole_Lang. unfold emailPattern, LooksLikeEmail. split.
  - intros H.
    apply Lang_Seq in H as [l [r1 [-> [Hl H]]]].
    apply Lang_Seq in H as [a [r2 [-> [Ha H]]]].
    apply Lang_Seq in H as [d [r3 [-> [Hd H]]]].
    apply Lang_Seq in H as [o [t [-> [Ho Ht]]]].
    apply Lang_Chr in Ha, Ho. subst a o.
    exists l, d, t. rewrite Lang_plain in Hl, Hd, Ht. simpl. auto.
  - intros [l [d [t [-> [Hl [Hd Ht]]]]]].
    rewrite <- Lang_plain in Hl, Hd, Ht.
    change (l ++ chr "@" :: d ++ chr "." :: t)
      with (l ++ [chr "@"] ++ d ++ [chr "."] ++ t).
    repeat (constructor; auto); now apply Lang_Chr.
Qed.

Lemma forallb_phoneChar (body : jsstring) :
  forallb phoneChar body = true <-> Forall PhoneCharacter body.
Proof.
  rewrite forallb_forall, Forall_forall.
  split; intros H c Hc; specialize (H c Hc); unfold phoneChar, PhoneCharacter in *.
  - rewrite !orb_true_iff, !N.eqb_eq in H. tauto.
  - rewrite !orb_true_iff, !N.eqb_eq. tauto.
Qed.

Lemma matches_phonePattern (s : jsstring) :
  matchesWhole phonePattern s = true <-> LooksLikePhone s.
Proof.
  rewrite matchesWhole_Lang. unfold phonePattern, LooksLikePhone.
  rewrite Lang_Seq. split.
  - intros [o [body [-> [Ho H]]]].
    apply Lang_Repeat_Class in H as [Hlen H]; [|lia].
    apply forallb_phoneChar in H. exists body.
    apply Lang_Opt in Ho as [Ho | ->].
    + apply Lang_Chr in Ho as ->. simpl. auto.
    + simpl. auto.
  - intros [body [E [Hlen H]]]. apply forallb_phoneChar in H.
    assert (HB : Lang (Repeat 8 20 (Class phoneChar)) body)
      by (apply Lang_Repeat_Class; [lia | auto]).
    destruct E as [-> | ->].
    + exists [], body. split; [reflexivity|]. split; [apply Lang_Opt; now right | exact HB].
    + exists [chr "+"], body. split; [reflexivity|].
      split; [apply Lang_Opt; left; now apply Lang_Chr | exact HB].
Qed.

Lemma wifi_check (s : jsstring) :
  (startsWith s (str "{") && endsWith s (str "}")) && includes s (str "ssid") = true
  <-> LooksLikeWifi s.
Proof.
  unfold LooksLikeWifi.
  now rewrite !andb_true_iff, startsWith_spec, endsWith_spec, includes_spec, and_assoc.
Qed.

End Patterns.

(** ** String conversion *)

Section ConversionFacts.
Context {rt : JSRuntime}.
Import Spec.

(** The conversion throws exactly on the values that cannot be converted. *)
Lemma toStringWithin_throws (room : nat) (v : JSValue) :
  toStringWithin room v = None <-> Unconvertible room v.
Proof.
  revert v. induction room as [|room IH]; intros v.
  - destruct v as [|b|token|s|elements|members]; simpl.
    + split; [discriminate | intros H; inversion H].
    + destruct b; (split; [discriminate | intros H; inversion H]).
    + split; [discriminate | intros H; inversion H].
    + split; [discriminate | intros H; inversion H].
    + split; [constructor | reflexivity].
    + destruct (lookupMember (str "toString") members) as [x|] eqn:E.
      * split; [intros _; now apply (OwnToString _ _ x) | reflexivity].
      * split; [discriminate | intros H; inversion H; congruence].
  - destruct v as [|b|token|s|elements|members]; simpl.
    + split; [discriminate | intros H; inversion H].
    + destruct b; (split; [discriminate | intros H; inversion H]).
    + split; [discriminate | intros H; inversion H].
    + split; [discriminate | intros H; inversion H].
    + match goal with
      | |- option_map _ (?f elements) = None <-> _ => set (parts := f)
      end.
      assert (G : parts elements = None <-> exists e, In e elements /\ Unconvertible room e).
      { induction elements as [|e es IHes]; simpl.
        - split; [discriminate | intros [e [[] _]]].
        - assert (Ge : match e with JNull => Some [] | _ => toStringWithin room e end = None
                       <-> Unconvertible room e).
          { destruct e; try apply IH. split; [discriminate | intros H; inversion H]. }
          destruct (match e with JNull => Some [] | _ => toStringWithin room e end) as [t|].
          + destruct (parts es) as [ts|].
            * split; [discriminate|]. intros [x [[<- | Hx] U]].
              -- apply Ge in U. discriminate.
              -- assert (X : exists e0, In e0 es /\ Unconvertible room e0) by eauto.
                 apply IHes in X. discriminate.
            * split; [|reflexivity]. intros _.
              destruct (proj1 IHes eq_refl) as [x [Hx U]]. exists x. auto.
          + split; [|reflexivity]. intros _. exists e. split; [now left | now apply Ge]. }
      destruct (parts elements) as [ps|]; simpl.
      * split; [discriminate|]. intros H. inversion H as [| |? ? e He U]; subst.
        assert (X : exists e, In e elements /\ Unconvertible room e) by eauto.
        apply G in X. discriminate.
      * split; [|reflexivity]. intros _. destruct (proj1 G eq_refl) as [e [He U]].
        now apply (HoldsUnconvertible _ _ e).
    + destruct (lookupMember (str "toString") members) as [x|] eqn:E.
      * split; [intros _; now apply (OwnToString _ _ x) | reflexivity].
      * split; [discriminate | intros H; inversion H; congruence].
Qed.

Lemma toStringJS_throws (v : JSValue) : toStringJS v = None <-> Unconvertible stackRoom v.
Proof. apply toStringWithin_throws. Qed.

Lemma toStringWithin_nestedArray (room n : nat) :
  toStringWithin room (nestedArray n) = if n <? room then Some [] else None.
Proof.
  revert room; induction n as [|n IH]; intros [|room]; try reflexivity.
  cbn [nestedArray toStringWithin].
  assert (E : match nestedArray n with
              | JNull => Some []
              | _ => toStringWithin room (nestedArray n)
              end = toStringWithin room (nestedArray n)) by now destruct n.
  rewrite E, IH. change (S n <? S room) with (n <? room).
  now destruct (n <? room).
Qed.

End ConversionFacts.

(** ** Reading nested arrays *)

Lemma JSON_run_app (st : JSON.PState) (a b : jsstring) :
  JSON.run st (a ++ b)
  = match JSON.run st a with
    | Some st' => JSON.run st' b
    | None => None
    end.
Proof.
  revert st; induction a as [|c a IH]; intros st; simpl; [reflexivity|].
  destruct (JSON.step st c); [apply IH | reflexivity].
Qed.

Lemma JSON_run_opens (n : nat) (stack : list JSON.Frame) :
  JSON.run (JSON.ExpectValueOrClose, stack) (repeat (chr "[") n)
  = Some (JSON.ExpectValueOrClose, repeat (JSON.FArray []) n ++ stack).
Proof.
  revert stack; induction n as [|n IH]; intros stack; [reflexivity|].
  cbn [repeat JSON.run]. change (JSON.step (JSON.ExpectValueOrClose, stack) (chr "["))
    with (Some (JSON.ExpectValueOrClose, JSON.FArray [] :: stack)).
  cbv beta iota. rewrite IH. f_equal. f_equal.
  change (JSON.FArray [] :: stack) with ([JSON.FArray []] ++ stack).
  rewrite app_assoc, <- repeat_cons. reflexivity.
Qed.

Lemma nestedIn_array (n : nat) (v : JSValue) : nestedIn n (JArray [v]) = JArray [nestedIn n v].
Proof. revert v; induction n as [|n IH]; intros v; simpl; [reflexivity | now rewrite IH]. Qed.

Lemma nestedArray_nestedIn (n : nat) : nestedArray n = nestedIn n (JArray []).
Proof.
  induction n as [|n IH]; simpl; [reflexivity|]. now rewrite IH, nestedIn_array.
Qed.

Lemma JSON_run_closes (n : nat) (v : JSValue) (key : jsstring) (rest : jsstring) :
  JSON.run (JSON.AfterValue,
            JSON.FArray [v] :: repeat (JSON.FArray []) n ++ [JSON.FObjectValue [] key])
    (repeat (chr "]") (S n) ++ rest)
  = JSON.run (JSON.AfterValue, [JSON.FObjectKey [(key, nestedIn (S n) v)]]) rest.
Proof.
  revert v; induction n as [|n IH]; intros v; [reflexivity|].
  change (repeat (chr "]") (S (S n)) ++ rest) with (chr "]" :: (repeat (chr "]") (S n) ++ rest)).
  cbn [JSON.run].
  change (JSON.step (JSON.AfterValue,
            JSON.FArray [v] :: repeat (JSON.FArray []) (S n) ++ [JSON.FObjectValue [] key])
            (chr "]"))
    with (Some (JSON.AfterValue,
                JSON.FArray [JArray [v]] :: repeat (JSON.FArray []) n
                ++ [JSON.FObjectValue [] key])).
  cbv beta iota. now rewrite IH.
Qed.

(** Arrays nested to any depth are read. *)
Lemma parse_ssidNestedArray (n : nat) :
  JSON.parse (ssidNestedArray n) = Some (JObject [(str "ssid", nestedArray n)]).
Proof.
  unfold JSON.parse, ssidNestedArray. rewrite JSON_run_app.
  change (JSON.run (JSON.ExpectValue, []) (quoted "{'ssid':"))
    with (Some (JSON.ExpectValue, [JSON.FObjectValue [] (str "ssid")])).
  change (repeat (chr "[") (S n)) with (chr "[" :: repeat (chr "[") n).
  rewrite <- app_comm_cons. cbn [JSON.run].
  change (JSON.step (JSON.ExpectValue, [JSON.FObjectValue [] (str "ssid")]) (chr "["))
    with (Some (JSON.ExpectValueOrClose, [JSON.FArray []; JSON.FObjectValue [] (str "ssid")])).
  cbv beta iota. rewrite JSON_run_app, JSON_run_opens, nestedArray_nestedIn.
  destruct n as [|n]; [reflexivity|].
  change (repeat (chr "]") (S (S n)) ++ str "}")
    with (chr "]" :: (repeat (chr "]") (S n) ++ str "}")).
  cbn [JSON.run].
  change (JSON.step (JSON.ExpectValueOrClose,
            repeat (JSON.FArray []) (S n)
            ++ [JSON.FArray []; JSON.FObjectValue [] (str "ssid")]) (chr "]"))
    with (match repeat (JSON.FArray []) (S n)
                ++ [JSON.FArray []; JSON.FObjectValue [] (str "ssid")] with
          | JSON.FArray done :: st' => JSON.pushValue (JArray (rev done)) st'
          | _ => None
          end).
  cbn [repeat app].
  replace (repeat (JSON.FArray []) n ++ [JSON.FArray []; JSON.FObjectValue [] (str "ssid")])
    with (JSON.FArray [] :: repeat (JSON.FArray []) n ++ [JSON.FObjectValue [] (str "ssid")]).
  2:{ change [JSON.FArray []; JSON.FObjectValue [] (str "ssid")]
        with ([JSON.FArray []] ++ [JSON.FObjectValue [] (str "ssid")]).
      rewrite app_assoc, <- repeat_cons. reflexivity. }
  cbn [JSON.pushValue rev app].
  change (chr "]" :: repeat (chr "]") n ++ str "}") with (repeat (chr "]") (S n) ++ str "}").
  rewrite JSON_run_closes. reflexivity.
Qed.

(** ** The formatter *)

Section FormatterFacts.
Context {rt : JSRuntime}.
Import Spec.

Lemma format_url_cases (s : jsstring) :
  formatContentByType s url =
  if RegExp.matchesPrefix httpPattern s then s else str "https://" ++ s.
Proof. unfold formatContentByType. now destruct (RegExp.matchesPrefix httpPattern s). Qed.

Lemma fieldOr_FieldText (v : JSValue) (key default : string) (out : jsstring) :
  v <> JNull ->
  FieldText (membersOf v) key default out ->
  fieldOr v key default = Some out.
Proof.
  intros Hv H. unfold fieldOr.
  assert (G : getProperty v (str key) = Some (lookupMember (str key) (membersOf v))).
  { destruct v; try reflexivity. congruence. }
  rewrite G. destruct H as [Hm | x Hx Hf | x o Hx Ht Hs].
  - now rewrite Hm.
  - now rewrite Hx, Hf.
  - now rewrite Hx, Ht.
Qed.

(** Every field either has a text or throws. *)
Lemma field_cases (members : list (jsstring * JSValue)) (key default : string) :
  (exists out, FieldText members key default out) \/ FieldThrows members key.
Proof.
  destruct (lookupMember (str key) members) as [x|] eqn:Hx.
  - destruct (toBoolean x) eqn:Ht.
    + destruct (toStringJS x) as [o|] eqn:Hs.
      * left. exists o. eapply FieldTruthy; eauto.
      * right. exists x. apply toStringJS_throws in Hs. auto.
    + left. exists (str default). eapply FieldFalsy; eauto.
  - left. exists (str default). now apply FieldMissing.
Qed.

Lemma fieldOr_throws (v : JSValue) (key default : string) :
  FieldThrows (membersOf v) key -> fieldOr v key default = None.
Proof.
  intros [x [Hx [Ht Hs]]]. destruct v; simpl in Hx; try discriminate.
  apply toStringJS_throws in Hs.
  unfold fieldOr. simpl. now rewrite Hx, Ht.
Qed.

Lemma fieldOr_cases (v : JSValue) (key default : string) :
  v <> JNull ->
  (exists out, fieldOr v key default = Some out /\ FieldText (membersOf v) key default out)
  \/ (fieldOr v key default = None /\ FieldThrows (membersOf v) key).
Proof.
  intros Hv. destruct (field_cases (membersOf v) key default) as [[out H] | H].
  - left. exists out. split; [now apply fieldOr_FieldText | exact H].
  - right. split; [now apply fieldOr_throws | exact H].
Qed.

Lemma format_wifi_payload (s : jsstring) (v : JSValue) (e ss p : jsstring) :
  JSON.parse s = Some v -> v <> JNull ->
  FieldText (membersOf v) "encryption" "WPA" e ->
  FieldText (membersOf v) "ssid" "" ss ->
  FieldText (membersOf v) "password" "" p ->
  formatContentByType s wifi = wifiPayload e ss p.
Proof.
  intros Hp Hv He Hs Hw. unfold formatContentByType. rewrite Hp.
  rewrite (fieldOr_FieldText _ _ _ _ Hv He), (fieldOr_FieldText _ _ _ _ Hv Hs),
    (fieldOr_FieldText _ _ _ _ Hv Hw).
  reflexivity.
Qed.

Lemma format_wifi_syntax_error (s : jsstring) :
  JSON.parse s = None -> formatContentByType s wifi = s.
Proof. intros H. unfold formatContentByType. now rewrite H. Qed.

(** A text that starts like a WiFi payload is not JSON. *)
Lemma wifiPayload_not_JSON (e ss p : jsstring) : JSON.parse (wifiPayload e ss p) = None.
Proof. reflexivity. Qed.

Lemma format_wifi_unchanged_iff (s : jsstring) :
  formatContentByType s wifi = s <->
  (JSON.parse s = None \/ JSON.parse s = Some JNull
   \/ exists v, JSON.parse s = Some v
        /\ (FieldThrows (membersOf v) "encryption" \/ FieldThrows (membersOf v) "ssid"
            \/ FieldThrows (membersOf v) "password")).
Proof.
  split.
  - intros H. destruct (JSON.parse s) as [v|] eqn:Hp; [|now left]. right.
    destruct v; try (now left); right;
      match goal with
      | _ : JSON.parse s = Some ?v |- _ =>
          assert (Hv : v <> JNull) by discriminate;
          exists v; split; [reflexivity|];
          destruct (fieldOr_cases v "encryption" "WPA" Hv) as [[e [He He']] | [_ T]]; [|now left];
          destruct (fieldOr_cases v "ssid" "" Hv) as [[ss [Hs Hs']] | [_ T]]; [|now (right; left)];
          destruct (fieldOr_cases v "password" "" Hv) as [[p [Hw Hw']] | [_ T]]; [|now (right; right)];
          exfalso;
          pose proof (format_wifi_payload s v e ss p Hp Hv He' Hs' Hw') as F;
          rewrite H in F; rewrite F in Hp;
          now rewrite wifiPayload_not_JSON in Hp
      end.
  - intros [H | [H | [v [Hp T]]]]; unfold formatContentByType.
    + now rewrite H.
    + now rewrite H.
    + rewrite Hp. destruct T as [T | [T | T]].
      * now rewrite (fieldOr_throws _ _ "WPA" T).
      * rewrite (fieldOr_throws _ _ "" T).
        now destruct (fieldOr v "encryption" "WPA").
      * rewrite (fieldOr_throws _ _ "" T).
        now destruct (fieldOr v "encryption" "WPA"), (fieldOr v "ssid" "").
Qed.

(** An [ssid] of nested arrays is converted, to the empty text, when the
    call stack has room for them, and sends the formatter to its fallback
    when it has not. *)
Lemma format_wifi_nested (n : nat) :
  formatContentByType (ssidNestedArray n) wifi
  = if n <? stackRoom then str "WIFI:T:WPA;S:;P:;;" else ssidNestedArray n.
Proof.
  assert (L : lookupMember (str "ssid") [(str "ssid", nestedArray n)] = Some (nestedArray n))
    by reflexivity.
  assert (B : toBoolean (nestedArray n) = true) by now destruct n.
  pose proof (toStringWithin_nestedArray stackRoom n) as C.
  destruct (n <? stackRoom).
  - apply (format_wifi_payload _ (JObject [(str "ssid", nestedArray n)]) (str "WPA") [] []).
    + apply parse_ssidNestedArray.
    + discriminate.
    + now apply FieldMissing.
    + now apply (FieldTruthy _ _ _ (nestedArray n)).
    + now apply FieldMissing.
  - apply format_wifi_unchanged_iff. right; right.
    exists (JObject [(str "ssid", nestedArray n)]). split; [apply parse_ssidNestedArray|].
    right; left. exists (nestedArray n). repeat split; auto. now apply toStringJS_throws.
Qed.

End FormatterFacts.

(** C2. On the [url] kind the formatter returns unchanged every string that
    starts, whatever the case of its letters, with [http://] or [https://],
    and returns [https://] followed by the string for every other string. *)
Theorem format_url_adds_scheme_when_missing (rt : JSRuntime) (s : jsstring) :
  (Spec.HasHttpScheme s -> formatContentByType s url = s)
  /\ (~ Spec.HasHttpScheme s -> formatContentByType s url = str "https://" ++ s).
Proof.
  rewrite format_url_cases. pose proof (matches_httpPattern s) as M.
  destruct (RegExp.matchesPrefix httpPattern s).
  - split; [reflexivity|]. intros N. exfalso. apply N, M. reflexivity.
  - split; [|reflexivity]. intros Y. apply M in Y. discriminate.
Qed.

Lemma format_url_adds_scheme_when_missing_witness :
  (Spec.HasHttpScheme (str "HTTPS://example.com")
   /\ formatContentByType (str "HTTPS://example.com") url = str "HTTPS://example.com")
  /\ (~ Spec.HasHttpScheme (str "example.com")
      /\ formatContentByType (str "example.com") url = str "https://example.com").
Proof.
  assert (Y : Spec.HasHttpScheme (str "HTTPS://example.com"))
    by (apply matches_httpPattern; reflexivity).
  assert (N : ~ Spec.HasHttpScheme (str "example.com"))
    by (rewrite <- matches_httpPattern; vm_compute; discriminate).
  split; split.
  - exact Y.
  - exact (proj1 (format_url_adds_scheme_when_missing exampleRuntime _) Y).
  - exact N.
  - exact (proj2 (format_url_adds_scheme_when_missing exampleRuntime _) N).
Defined.

Lemma longer_is_different (p s : jsstring) : p <> [] -> p ++ s <> s.
Proof.
  intros Hp E. apply (f_equal (@length _)) in E. rewrite length_app in E.
  destruct p; [congruence | simpl in E; lia].
Qed.

(** C4. On the [email], [phone] and [sms] kinds the formatter puts
    [mailto:], [tel:] and [sms:] in front of the string whatever the string
    is; formatting an email twice gives [mailto:mailto:] followed by the
    string, and on none of the three kinds is the formatter idempotent. *)
Theorem format_scheme_prefix_unconditional (rt : JSRuntime) (s : jsstring) :
  formatContentByType s email = str "mailto:" ++ s
  /\ formatContentByType s phone = str "tel:" ++ s
  /\ formatContentByType s sms = str "sms:" ++ s
  /\ formatContentByType (formatContentByType s email) email = str "mailto:mailto:" ++ s
  /\ formatContentByType (formatContentByType s email) email <> formatContentByType s email
  /\ formatContentByType (formatContentByType s phone) phone <> formatContentByType s phone
  /\ formatContentByType (formatContentByType s sms) sms <> formatContentByType s sms.
Proof.
  repeat split; try reflexivity; unfold formatContentByType;
    apply longer_is_different; discriminate.
Qed.

(** The earlier revision of the formatter guards the two prefixes it has:
    it is idempotent on [email] and [phone]. *)
Lemma earlier_revision_guards_prefix (stringify : JSValue -> jsstring) (s : jsstring) :
  let f := EarlierRevision.formatContentByType stringify in
  f (f s EarlierRevision.email) EarlierRevision.email = f s EarlierRevision.email
  /\ f (f s EarlierRevision.phone) EarlierRevision.phone = f s EarlierRevision.phone.
Proof.
  cbv zeta. unfold EarlierRevision.formatContentByType. split.
  - destruct (startsWith s (str "mailto:")) eqn:E; [now rewrite E|].
    assert (G : startsWith (str "mailto:" ++ s) (str "mailto:") = true)
      by (apply startsWith_spec; eauto).
    now rewrite G.
  - destruct (startsWith s (str "tel:")) eqn:E; [now rewrite E|].
    assert (G : startsWith (str "tel:" ++ s) (str "tel:") = true)
      by (apply startsWith_spec; eauto).
    now rewrite G.
Qed.

Lemma decided_true (P : Prop) : (true = true <-> P) -> P.
Proof. intros H. now apply H. Qed.

Lemma decided_false (P : Prop) : (false = true <-> P) -> ~ P.
Proof. intros H HP. apply H in HP. discriminate. Qed.

Lemma detectContentType_cases (s : jsstring) :
  (detectContentType s = url <-> Spec.LooksLikeUrl s)
  /\ (detectContentType s = email <-> ~ Spec.LooksLikeUrl s /\ Spec.LooksLikeEmail s)
  /\ (detectContentType s = phone <->
      ~ Spec.LooksLikeUrl s /\ ~ Spec.LooksLikeEmail s /\ Spec.LooksLikePhone s)
  /\ (detectContentType s = wifi <->
      ~ Spec.LooksLikeUrl s /\ ~ Spec.LooksLikeEmail s /\ ~ Spec.LooksLikePhone s
      /\ Spec.LooksLikeWifi s)
  /\ (detectContentType s = text <->
      ~ Spec.LooksLikeUrl s /\ ~ Spec.LooksLikeEmail s /\ ~ Spec.LooksLikePhone s
      /\ ~ Spec.LooksLikeWifi s).
Proof.
  pose proof (matches_urlPattern s) as U.
  pose proof (matches_emailPattern s) as E.
  pose proof (matches_phonePattern s) as P.
  pose proof (wifi_check s) as W.
  unfold detectContentType.
  destruct (RegExp.matchesPrefix urlPattern s).
  { apply decided_true in U. intuition congruence. }
  apply decided_false in U.
  destruct (RegExp.matchesWhole emailPattern s).
  { apply decided_true in E. intuition congruence. }
  apply decided_false in E.
  destruct (RegExp.matchesWhole phonePattern s).
  { apply decided_true in P. intuition congruence. }
  apply decided_false in P.
  destruct ((startsWith s (str "{") && endsWith s (str "}")) && includes s (str "ssid")).
  { apply decided_true in W. intuition congruence. }
  apply decided_false in W. intuition congruence.
Qed.

(** C5. [detectContentType] applies its checks in a fixed order and the
    first that holds decides: [url] for a string that starts, whatever the
    case, with [http://], [https://] or [www.]; else [email] for a
    [local@domain.tld] shape whose three parts are non-empty and hold neither
    white space nor [@]; else [phone] for an optional [+] followed by 8 to 20
    digits, white space, parentheses or hyphens; else [wifi] for a string that
    starts with [{], ends with [}] and contains [ssid]; else [text].  The four
    examples of the specification are detected as it says. *)
Theorem detectContentType_first_match_wins (s : jsstring) :
  (detectContentType s = url <-> Spec.LooksLikeUrl s)
  /\ (detectContentType s = email <-> ~ Spec.LooksLikeUrl s /\ Spec.LooksLikeEmail s)
  /\ (detectContentType s = phone <->
      ~ Spec.LooksLikeUrl s /\ ~ Spec.LooksLikeEmail s /\ Spec.LooksLikePhone s)
  /\ (detectContentType s = wifi <->
      ~ Spec.LooksLikeUrl s /\ ~ Spec.LooksLikeEmail s /\ ~ Spec.LooksLikePhone s
      /\ Spec.LooksLikeWifi s)
  /\ (detectContentType s = text <->
      ~ Spec.LooksLikeUrl s /\ ~ Spec.LooksLikeEmail s /\ ~ Spec.LooksLikePhone s
      /\ ~ Spec.LooksLikeWifi s)
  /\ detectContentType (str "user@example.com") = email
  /\ detectContentType (str "https://example.com") = url
  /\ detectContentType (str "+1 (555) 123-4567") = phone
  /\ detectContentType (str "hello world") = text.
Proof.
  destruct (detectContentType_cases s) as (H1 & H2 & H3 & H4 & H5).
  repeat (split; [assumption|]).
  repeat split; vm_compute; reflexivity.
Qed.

(** C3, as stated, fails: the text parses as a JSON object, and the formatter
    returns it unchanged instead of a [WIFI:] payload, on every runtime. *)
Lemma format_wifi_object_unconverted :
  JSON.parse ssidWithOwnToString
  = Some (JObject [(str "ssid", JObject [(str "toString", JNumber (str "1"))])])
  /\ (forall rt : JSRuntime, formatContentByType ssidWithOwnToString wifi = ssidWithOwnToString)
  /\ (forall (rt : JSRuntime) (e ss p : jsstring),
        formatContentByType ssidWithOwnToString wifi
        <> str "WIFI:T:" ++ e ++ str ";S:" ++ ss ++ str ";P:" ++ p ++ str ";;").
Proof.
  split; [reflexivity|]. split; [reflexivity|].
  intros rt e ss p H. discriminate H.
Qed.

(** C3 (amended). For every string that parses as a JSON object, when each
    of the fields [encryption], [ssid] and [password] is missing, falsy or
    has a string conversion, the formatter returns
    [WIFI:T:<encryption>;S:<ssid>;P:<password>;;] built from the texts of the
    fields, a missing or falsy field giving its default ([WPA] for the
    encryption, the empty string for the other two).  When a truthy field
    cannot be converted (it is an object with a member named [toString], an
    array nested deeper than the call stack has room for, or an array that
    holds such a value), and for every string that fails to parse as JSON,
    the formatter returns the string unchanged.  Every field is in one case
    or the other.  An [ssid] of more nested arrays than the stack has room
    for parses, and the text comes back unchanged.  The two examples of the
    specification come out as it says. *)
Theorem format_wifi_object (rt : JSRuntime) (s : jsstring) :
  (forall members e ss p,
      JSON.parse s = Some (JObject members) ->
      Spec.FieldText members "encryption" "WPA" e ->
      Spec.FieldText members "ssid" "" ss ->
      Spec.FieldText members "password" "" p ->
      formatContentByType s wifi
      = str "WIFI:T:" ++ e ++ str ";S:" ++ ss ++ str ";P:" ++ p ++ str ";;")
  /\ (forall members,
        JSON.parse s = Some (JObject members) ->
        Spec.FieldThrows members "encryption" \/ Spec.FieldThrows members "ssid"
        \/ Spec.FieldThrows members "password" ->
        formatContentByType s wifi = s)
  /\ (forall members key default,
        (exists out, Spec.FieldText members key default out)
        \/ Spec.FieldThrows members key)
  /\ (JSON.parse s = None -> formatContentByType s wifi = s)
  /\ (forall n,
        stackRoom <= n ->
        JSON.parse (ssidNestedArray n) = Some (JObject [(str "ssid", nestedArray n)])
        /\ formatContentByType (ssidNestedArray n) wifi = ssidNestedArray n)
  /\ formatContentByType (quoted "{'ssid':'Home','password':'pw','encryption':'WPA2'}") wifi
     = str "WIFI:T:WPA2;S:Home;P:pw;;"
  /\ formatContentByType (str "not json") wifi = str "not json".
Proof.
  split; [|split; [|split; [|split; [|split; [|split]]]]].
  - intros members e ss p Hp He Hs Hw.
    apply (format_wifi_payload s (JObject members) e ss p Hp); [discriminate | assumption ..].
  - intros members Hp T. apply format_wifi_unchanged_iff. right; right.
    exists (JObject members). auto.
  - apply field_cases.
  - apply format_wifi_syntax_error.
  - intros n Hn. split; [apply parse_ssidNestedArray|].
    rewrite format_wifi_nested. apply Nat.ltb_ge in Hn. now rewrite Hn.
  - reflexivity.
  - reflexivity.
Qed.

Lemma format_wifi_object_witness :
  JSON.parse (quoted "{'ssid':'Cafe','password':null}")
  = Some (JObject [(str "ssid", JString (str "Cafe")); (str "password", JNull)])
  /\ formatContentByType (quoted "{'ssid':'Cafe','password':null}") wifi
     = str "WIFI:T:WPA;S:Cafe;P:;;"
  /\ JSON.parse (str "{ssid}") = None
  /\ formatContentByType (str "{ssid}") wifi = str "{ssid}"
  /\ formatContentByType (ssidNestedArray 1000) wifi = ssidNestedArray 1000.
Proof.
  pose proof (format_wifi_object exampleRuntime (quoted "{'ssid':'Cafe','password':null}"))
    as [T _].
  pose proof (format_wifi_object exampleRuntime (str "{ssid}")) as [_ [_ [_ [F [D _]]]]].
  split; [reflexivity|].
  split; [|split; [reflexivity | split; [exact (F eq_refl) | exact (proj2 (D 1000 (le_n _)))]]].
  apply (T [(str "ssid", JString (str "Cafe")); (str "password", JNull)]
           (str "WPA") (str "Cafe") (str "")).
  - reflexivity.
  - apply Spec.FieldMissing. reflexivity.
  - apply (Spec.FieldTruthy _ _ _ (JString (str "Cafe"))); reflexivity.
  - apply (Spec.FieldFalsy _ _ _ JNull); reflexivity.
Defined.

(** C10, as stated, fails: the text parses to a value that is not [null],
    and the unchanged-input fallback fires all the same, on every runtime. *)
Lemma format_wifi_fallback_without_syntax_error :
  JSON.parse passwordHoldingOwnToString
  = Some (JObject [(str "password", JArray [JObject [(str "toString", JNull)]])])
  /\ (forall rt : JSRuntime,
        formatContentByType passwordHoldingOwnToString wifi = passwordHoldingOwnToString)
  /\ (forall (rt : JSRuntime) (e ss p : jsstring),
        formatContentByType passwordHoldingOwnToString wifi
        <> str "WIFI:T:" ++ e ++ str ";S:" ++ ss ++ str ";P:" ++ p ++ str ";;").
Proof.
  assert (U : forall rt : JSRuntime,
             formatContentByType passwordHoldingOwnToString wifi = passwordHoldingOwnToString).
  { intros rt. unfold formatContentByType.
    change (JSON.parse passwordHoldingOwnToString)
      with (Some (JObject [(str "password", JArray [JObject [(str "toString", JNull)]])])).
    cbv beta iota.
    change (fieldOr (JObject [(str "password", JArray [JObject [(str "toString", JNull)]])])
              "password" "")
      with (toStringWithin stackRoom (JArray [JObject [(str "toString", JNull)]])).
    assert (N : toStringWithin stackRoom (JArray [JObject [(str "toString", JNull)]]) = None)
      by now destruct stackRoom.
    rewrite N. reflexivity. }
  split; [reflexivity|]. split; [exact U|].
  intros rt e ss p H. rewrite U in H. discriminate H.
Qed.

(** C10 (amended). For every string that parses as JSON to a value other
    than [null], an object or not, when each of the three fields is missing,
    falsy or has a string conversion, the formatter returns the WiFi payload
    with every missing or falsy field replaced by its default; a value that
    is not an object has no field, so it gives [WIFI:T:WPA;S:;P:;;], as do
    [{}] and [5].  The formatter returns its input unchanged exactly when the
    text is not JSON, when it is [null], or when a truthy field cannot be
    converted: it is an object with a member named [toString], an array
    nested deeper than the call stack has room for, or an array that holds
    such a value.  An [ssid] of [n + 1] nested arrays parses; it gives the
    payload with an empty [ssid] when the stack has room for them and the
    unchanged text when it has not. *)
Theorem format_wifi_any_value (rt : JSRuntime) (s : jsstring) :
  (forall v e ss p,
      JSON.parse s = Some v -> v <> JNull ->
      Spec.FieldText (Spec.membersOf v) "encryption" "WPA" e ->
      Spec.FieldText (Spec.membersOf v) "ssid" "" ss ->
      Spec.FieldText (Spec.membersOf v) "password" "" p ->
      formatContentByType s wifi
      = str "WIFI:T:" ++ e ++ str ";S:" ++ ss ++ str ";P:" ++ p ++ str ";;")
  /\ (forall v,
        JSON.parse s = Some v -> v <> JNull -> Spec.membersOf v = [] ->
        formatContentByType s wifi = str "WIFI:T:WPA;S:;P:;;")
  /\ (formatContentByType s wifi = s <->
      (JSON.parse s = None \/ JSON.parse s = Some JNull
       \/ exists v, JSON.parse s = Some v
            /\ (Spec.FieldThrows (Spec.membersOf v) "encryption"
                \/ Spec.FieldThrows (Spec.membersOf v) "ssid"
                \/ Spec.FieldThrows (Spec.membersOf v) "password")))
  /\ (forall v, toStringJS v = None <-> Spec.Unconvertible stackRoom v)
  /\ (forall n,
        JSON.parse (ssidNestedArray n) = Some (JObject [(str "ssid", nestedArray n)])
        /\ formatContentByType (ssidNestedArray n) wifi
           = if n <? stackRoom then str "WIFI:T:WPA;S:;P:;;" else ssidNestedArray n)
  /\ formatContentByType (str "{}") wifi = str "WIFI:T:WPA;S:;P:;;"
  /\ formatContentByType (str "5") wifi = str "WIFI:T:WPA;S:;P:;;"
  /\ formatContentByType (str "null") wifi = str "null".
Proof.
  split; [|split; [|split; [|split; [|split; [|repeat split]]]]].
  - intros v e ss p. apply format_wifi_payload.
  - intros v Hp Hv Hm.
    apply (format_wifi_payload s v (str "WPA") (str "") (str "") Hp Hv);
      apply Spec.FieldMissing; now rewrite Hm.
  - apply format_wifi_unchanged_iff.
  - apply toStringJS_throws.
  - intros n. split; [apply parse_ssidNestedArray | apply format_wifi_nested].
Qed.

Lemma format_wifi_any_value_witness :
  JSON.parse (quoted "['ssid',0]") = Some (JArray [JString (str "ssid"); JNumber (str "0")])
  /\ formatContentByType (quoted "['ssid',0]") wifi = str "WIFI:T:WPA;S:;P:;;"
  /\ JSON.parse (quoted "{'encryption':'','ssid':true}")
     = Some (JObject [(str "encryption", JString []); (str "ssid", JBool true)])
  /\ formatContentByType (quoted "{'encryption':'','ssid':true}") wifi
     = str "WIFI:T:WPA;S:true;P:;;"
  /\ formatContentByType (quoted "{'ssid':[[]]}") wifi = str "WIFI:T:WPA;S:;P:;;".
Proof.
  pose proof (format_wifi_any_value exampleRuntime (quoted "['ssid',0]")) as [_ [A _]].
  pose proof (format_wifi_any_value exampleRuntime (quoted "{'encryption':'','ssid':true}"))
    as [B [_ [_ [_ [D _]]]]].
  split; [reflexivity|]. split; [|split; [reflexivity | split; [|exact (proj2 (D 1))]]].
  - apply (A (JArray [JString (str "ssid"); JNumber (str "0")]));
      [reflexivity | discriminate | reflexivity].
  - apply (B (JObject [(str "encryption", JString []); (str "ssid", JBool true)])
             (str "WPA") (str "true") (str "")).
    + reflexivity.
    + discriminate.
    + apply (Spec.FieldFalsy _ _ _ (JString [])); reflexivity.
    + apply (Spec.FieldTruthy _ _ _ (JBool true)); reflexivity.
    + apply Spec.FieldMissing. reflexivity.
Defined.

(** ** The batch run *)

Lemma trimStart_nil_iff (s : jsstring) : trimStart s = [] <-> forallb isWhiteSpace s = true.
Proof.
  induction s as [|c s IH]; simpl; [tauto|].
  destruct (isWhiteSpace c); simpl; [exact IH | split; discriminate].
Qed.

Lemma trimStart_head (s : jsstring) (c : char16) (t : jsstring) :
  trimStart s = c :: t -> isWhiteSpace c = false.
Proof.
  induction s as [|x s IH]; simpl; [discriminate|].
  destruct (isWhiteSpace x) eqn:E; [exact IH|]. intros H. injection H as -> _. exact E.
Qed.

Lemma forallb_reversed (f : char16 -> bool) (s : jsstring) :
  forallb f (rev s) = forallb f s.
Proof.
  induction s as [|c s IH]; simpl; [reflexivity|].
  rewrite forallb_app, IH. simpl. rewrite andb_true_r. apply andb_comm.
Qed.

Lemma trim_nil_iff (s : jsstring) : trim s = [] <-> Spec.isBlank s = true.
Proof.
  unfold trim, trimEnd, Spec.isBlank. rewrite <- trimStart_nil_iff. split.
  - intros H. apply (f_equal (@rev _)) in H. rewrite rev_involutive in H. simpl in H.
    apply trimStart_nil_iff in H. rewrite forallb_reversed in H.
    destruct (trimStart s) as [|c t] eqn:E; [reflexivity|].
    apply trimStart_head in E. simpl in H. now rewrite E in H.
  - intros ->. reflexivity.
Qed.

Lemma truthy_trim (s : jsstring) : truthyString (trim s) = negb (Spec.isBlank s).
Proof.
  pose proof (trim_nil_iff s) as H.
  destruct (trim s) eqn:E, (Spec.isBlank s); simpl; try reflexivity.
  - destruct H as [H _]. now specialize (H eq_refl).
  - destruct H as [_ H]. now specialize (H eq_refl).
Qed.

Lemma trim_not_empty (s : jsstring) : negb (eqbString (trim s) []) = negb (Spec.isBlank s).
Proof.
  rewrite <- truthy_trim. now destruct (trim s).
Qed.

Section BatchFacts.
Context {rt : JSRuntime}.
Variable toDataURL : jsstring -> option jsstring.

Lemma batchLoop_result (m : Mode) (entries : list BatchEntry.t)
  (acc : list BatchQRCode.t) (calls : list jsstring) (results : list BatchQRCode.t) :
  batchLoop toDataURL m entries acc = (calls, Some results) ->
  exists codes,
    results = acc ++ codes
    /\ Forall2 (MadeFrom toDataURL m) (Spec.retained entries) codes
    /\ calls = map BatchQRCode.formattedContent codes.
Proof.
  revert acc calls results; induction entries as [|e rest IH]; intros acc calls results; simpl.
  - intros H. injection H as <- <-. exists []. rewrite app_nil_r. repeat split; constructor.
  - rewrite truthy_trim. destruct (negb (Spec.isBlank (BatchEntry.content e))); [|apply IH].
    destruct (toDataURL (entryPayload m e)) as [d|] eqn:Hd; [|discriminate].
    destruct (batchLoop toDataURL m rest _) as [calls' r] eqn:Hl.
    intros H. injection H as <- ->.
    apply IH in Hl as [codes [-> [HF ->]]].
    exists (BatchQRCode.mk (BatchEntry.content e) (BatchEntry.type e) d (entryPayload m e) :: codes).
    rewrite <- app_assoc. split; [reflexivity|]. split; [|reflexivity].
    constructor; [|exact HF]. repeat split. exact Hd.
Qed.

Lemma batchLoop_accepts (m : Mode) (entries : list BatchEntry.t) (acc : list BatchQRCode.t) :
  Forall (fun entry => toDataURL (entryPayload m entry) <> None) (Spec.retained entries) ->
  exists calls results, batchLoop toDataURL m entries acc = (calls, Some results).
Proof.
  revert acc; induction entries as [|e rest IH]; intros acc; simpl.
  - intros _. eauto.
  - rewrite truthy_trim. destruct (negb (Spec.isBlank (BatchEntry.content e))); [|apply IH].
    intros H. inversion H as [|? ? He Hrest]; subst.
    destruct (toDataURL (entryPayload m e)) as [d|]; [|congruence].
    destruct (IH (acc ++ [BatchQRCode.mk (BatchEntry.content e) (BatchEntry.type e) d
                            (entryPayload m e)]) Hrest) as [calls [results ->]].
    eauto.
Qed.

Lemma hasContent_retained (entries : list BatchEntry.t) :
  existsb (fun entry => negb (eqbString (trim (BatchEntry.content entry)) [])) entries = false
  <-> Spec.retained entries = [].
Proof.
  induction entries as [|e rest IH]; simpl; [tauto|].
  rewrite trim_not_empty.
  destruct (negb (Spec.isBlank (BatchEntry.content e))); simpl; [split; discriminate | exact IH].
Qed.

(** The run reports no error exactly when the loop ran to its end. *)
Lemma generateBatchQRCodes_no_error (st : State) :
  error (fst (generateBatchQRCodes toDataURL st)) = [] ->
  Spec.retained (batchEntries st) <> []
  /\ exists calls results,
       batchLoop toDataURL (mode st) (batchEntries st) [] = (calls, Some results)
       /\ generateBatchQRCodes toDataURL st
          = (mkState (mode st) (batchEntries st) results [] false false
               (isDownloadingZip st) (useContentAsFilename st) (fileFormat st), calls).
Proof.
  unfold generateBatchQRCodes.
  destruct (existsb _ (batchEntries st)) eqn:E; simpl; [|discriminate].
  destruct (batchLoop toDataURL (mode st) (batchEntries st) []) as [calls [results|]];
    simpl; [|discriminate].
  intros _. split; [|eauto].
  intros H. apply hasContent_retained in H. congruence.
Qed.

End BatchFacts.

Lemma batchLoop_calls (rt : JSRuntime) (toDataURL : jsstring -> option jsstring)
  (m : Mode) (entries : list BatchEntry.t) (acc : list BatchQRCode.t) :
  exists n, fst (batchLoop toDataURL m entries acc)
            = map (entryPayload m) (firstn n (Spec.retained entries)).
Proof.
  revert acc; induction entries as [|e rest IH]; intros acc; simpl.
  - exists 0. reflexivity.
  - rewrite truthy_trim. destruct (negb (Spec.isBlank (BatchEntry.content e))); [|apply IH].
    destruct (toDataURL (entryPayload m e)) as [d|].
    + destruct (IH (acc ++ [BatchQRCode.mk (BatchEntry.content e) (BatchEntry.type e) d
                              (entryPayload m e)])) as [n Hn].
      destruct (batchLoop toDataURL m rest _) as [calls r]. simpl in *.
      exists (S n). simpl. now rewrite Hn.
    + exists 1. reflexivity.
Qed.

Lemma generateBatchQRCodes_calls (rt : JSRuntime) (toDataURL : jsstring -> option jsstring)
  (st : State) :
  exists n, snd (generateBatchQRCodes toDataURL st)
            = map (entryPayload (mode st)) (firstn n (Spec.retained (batchEntries st))).
Proof.
  unfold generateBatchQRCodes.
  destruct (negb (existsb _ (batchEntries st))); [exists 0; reflexivity|].
  destruct (batchLoop_calls rt toDataURL (mode st) (batchEntries st) []) as [n Hn].
  destruct (batchLoop toDataURL (mode st) (batchEntries st) []) as [calls [results|]];
    exists n; exact Hn.
Qed.

Lemma generateBatchQRCodes_made (rt : JSRuntime) (toDataURL : jsstring -> option jsstring)
  (st : State) :
  error (fst (generateBatchQRCodes toDataURL st)) = [] ->
  Forall2 (MadeFrom toDataURL (mode st)) (Spec.retained (batchEntries st))
    (batchCodes (fst (generateBatchQRCodes toDataURL st)))
  /\ snd (generateBatchQRCodes toDataURL st)
     = map BatchQRCode.formattedContent (batchCodes (fst (generateBatchQRCodes toDataURL st))).
Proof.
  intros H. apply generateBatchQRCodes_no_error in H as [_ [calls [results [Hl ->]]]].
  apply batchLoop_result in Hl as [codes [-> [HF ->]]]. simpl. auto.
Qed.

(** C1, as stated, fails in the promo-link mode: the run produces a code
    whose [formattedContent] is the promo link, which is not what the
    formatter gives for its content and type, on every runtime. *)
Lemma batch_promo_code_is_not_formatted :
  (forall rt : JSRuntime,
      batchCodes (fst (generateBatchQRCodes acceptingEncoder promoRunState))
      = [BatchQRCode.mk (str "PROMO1") text
           (str "data:image/png;base64,https://8jxm.adj.st/addpromocode?adj_t=rf7a0p4_8cgc7kg&ref=qr&code=PROMO1")
           (str "https://8jxm.adj.st/addpromocode?adj_t=rf7a0p4_8cgc7kg&ref=qr&code=PROMO1")])
  /\ (forall rt : JSRuntime, formatContentByType (str "PROMO1") text = str "PROMO1")
  /\ (forall (rt : JSRuntime) (code : BatchQRCode.t),
        In code (batchCodes (fst (generateBatchQRCodes acceptingEncoder promoRunState))) ->
        BatchQRCode.formattedContent code
        <> formatContentByType (BatchQRCode.content code) (BatchQRCode.type code)).
Proof.
  split; [reflexivity|]. split; [reflexivity|].
  intros rt code [<- | []]. discriminate.
Qed.

(** C1 (amended). For every code produced by a batch run in a mode other
    than the promo-link mode, the stored [formattedContent] is
    [formatContentByType] applied to the code's content and type; in the
    promo-link mode it is the promo link followed by the code's content. *)
Theorem batch_codes_formatted_by_type (rt : JSRuntime)
  (toDataURL : jsstring -> option jsstring) (st : State) :
  error (fst (generateBatchQRCodes toDataURL st)) = [] ->
  (mode st <> yandex_ultima ->
   Forall (fun code =>
             BatchQRCode.formattedContent code
             = formatContentByType (BatchQRCode.content code) (BatchQRCode.type code))
     (batchCodes (fst (generateBatchQRCodes toDataURL st))))
  /\ (mode st = yandex_ultima ->
      Forall (fun code =>
                BatchQRCode.formattedContent code
                = promoLinkPrefix ++ BatchQRCode.content code)
        (batchCodes (fst (generateBatchQRCodes toDataURL st)))).
Proof.
  intros H. apply generateBatchQRCodes_made in H as [HF _].
  revert HF. generalize (batchCodes (fst (generateBatchQRCodes toDataURL st))).
  generalize (Spec.retained (batchEntries st)).
  intros kept codes HF. split; intros Hm; induction HF as [|e c kept codes Hec _ IH];
    constructor; try exact IH;
    destruct Hec as (Hc & Ht & Hf & _); rewrite Hf, Hc; try rewrite Ht;
    unfold entryPayload.
  - destruct (mode st); try reflexivity. congruence.
  - now rewrite Hm.
Qed.

Lemma batch_codes_formatted_by_type_witness :
  error (fst (generateBatchQRCodes acceptingEncoder batchRunState)) = []
  /\ mode batchRunState <> yandex_ultima
  /\ Forall (fun code =>
               BatchQRCode.formattedContent code
               = formatContentByType (BatchQRCode.content code) (BatchQRCode.type code))
       (batchCodes (fst (generateBatchQRCodes acceptingEncoder batchRunState))).
Proof.
  assert (E : error (fst (@generateBatchQRCodes exampleRuntime acceptingEncoder batchRunState)) = [])
    by reflexivity.
  assert (M : mode batchRunState <> yandex_ultima) by discriminate.
  split; [exact E|]. split; [exact M|].
  exact (proj1 (batch_codes_formatted_by_type exampleRuntime acceptingEncoder batchRunState E) M).
Defined.

(** C6. When no encoder call throws, a batch run produces exactly one code
    for each entry whose trimmed content is not empty, with that entry's
    content and type, in the order of the entries; the entries whose trimmed
    content is empty are skipped; the encoder is called once for each code,
    one call after the other in that same order.  Without any such entry the
    run calls the encoder not at all and produces nothing. *)
Theorem batch_run_one_code_per_kept_entry (rt : JSRuntime)
  (toDataURL : jsstring -> option jsstring) (st : State) :
  Forall (fun entry => toDataURL (entryPayload (mode st) entry) <> None)
    (Spec.retained (batchEntries st)) ->
  (Spec.retained (batchEntries st) = [] ->
   snd (generateBatchQRCodes toDataURL st) = []
   /\ batchCodes (fst (generateBatchQRCodes toDataURL st)) = batchCodes st)
  /\ (Spec.retained (batchEntries st) <> [] ->
      error (fst (generateBatchQRCodes toDataURL st)) = []
      /\ Forall2 (fun entry code =>
                    BatchQRCode.content code = BatchEntry.content entry
                    /\ BatchQRCode.type code = BatchEntry.type entry
                    /\ toDataURL (BatchQRCode.formattedContent code)
                       = Some (BatchQRCode.dataUrl code))
           (Spec.retained (batchEntries st))
           (batchCodes (fst (generateBatchQRCodes toDataURL st)))
      /\ snd (generateBatchQRCodes toDataURL st)
         = map BatchQRCode.formattedContent
             (batchCodes (fst (generateBatchQRCodes toDataURL st)))).
Proof.
  intros Hacc. split; intros Hk.
  - apply hasContent_retained in Hk. unfold generateBatchQRCodes. rewrite Hk. simpl. auto.
  - assert (E : error (fst (generateBatchQRCodes toDataURL st)) = []).
    { unfold generateBatchQRCodes.
      destruct (existsb _ (batchEntries st)) eqn:Ex;
        [|apply hasContent_retained in Ex; congruence].
      destruct (batchLoop_accepts toDataURL (mode st) (batchEntries st) [] Hacc)
        as [calls [results ->]].
      reflexivity. }
    split; [exact E|].
    destruct (generateBatchQRCodes_made rt toDataURL st E) as [HF Hc].
    split; [|exact Hc].
    eapply Forall2_impl; [|exact HF]. intros e c (H1 & H2 & _ & H4). auto.
Qed.

Lemma batch_run_one_code_per_kept_entry_witness :
  Forall (fun entry => acceptingEncoder (entryPayload (mode batchRunState) entry) <> None)
    (Spec.retained (batchEntries batchRunState))
  /\ Spec.retained (batchEntries batchRunState)
     = [BatchEntry.mk (str "example.com") url; BatchEntry.mk (str "a@b.co") email]
  /\ map BatchQRCode.content
       (batchCodes (fst (generateBatchQRCodes acceptingEncoder batchRunState)))
     = [str "example.com"; str "a@b.co"]
  /\ snd (generateBatchQRCodes acceptingEncoder batchRunState)
     = map BatchQRCode.formattedContent
         (batchCodes (fst (generateBatchQRCodes acceptingEncoder batchRunState))).
Proof.
  assert (A : Forall (fun entry => acceptingEncoder (@entryPayload exampleRuntime
                                      (mode batchRunState) entry) <> None)
                (Spec.retained (batchEntries batchRunState)))
    by (apply Forall_forall; intros e _; discriminate).
  assert (K : Spec.retained (batchEntries batchRunState) <> []) by discriminate.
  destruct (proj2 (batch_run_one_code_per_kept_entry exampleRuntime acceptingEncoder
                     batchRunState A) K) as (_ & _ & C).
  split; [exact A|]. split; [reflexivity|]. split; [reflexivity | exact C].
Defined.

(** C7. In the promo-link mode every payload handed to the encoder, and the
    [formattedContent] of every code produced, is the fixed link
    [https://8jxm.adj.st/addpromocode?adj_t=rf7a0p4_8cgc7kg&ref=qr&code=]
    followed by the entry's content as it is; neither the formatter nor the
    entry's type has a part in it. *)
Theorem promo_mode_payload_is_fixed_link (rt : JSRuntime)
  (toDataURL : jsstring -> option jsstring) (st : State) :
  mode st = yandex_ultima ->
  (exists n,
      snd (generateBatchQRCodes toDataURL st)
      = map (fun entry =>
               str "https://8jxm.adj.st/addpromocode?adj_t=rf7a0p4_8cgc7kg&ref=qr&code="
               ++ BatchEntry.content entry)
          (firstn n (Spec.retained (batchEntries st))))
  /\ (error (fst (generateBatchQRCodes toDataURL st)) = [] ->
      Forall2 (fun entry code =>
                 BatchQRCode.formattedContent code
                 = str "https://8jxm.adj.st/addpromocode?adj_t=rf7a0p4_8cgc7kg&ref=qr&code="
                   ++ BatchEntry.content entry)
        (Spec.retained (batchEntries st))
        (batchCodes (fst (generateBatchQRCodes toDataURL st)))
      /\ snd (generateBatchQRCodes toDataURL st)
         = map (fun entry =>
                  str "https://8jxm.adj.st/addpromocode?adj_t=rf7a0p4_8cgc7kg&ref=qr&code="
                  ++ BatchEntry.content entry)
             (Spec.retained (batchEntries st))).
Proof.
  intros Hm.
  assert (P : forall entries,
             map (entryPayload (mode st)) entries
             = map (fun entry =>
                      str "https://8jxm.adj.st/addpromocode?adj_t=rf7a0p4_8cgc7kg&ref=qr&code="
                      ++ BatchEntry.content entry) entries).
  { intros entries. apply map_ext. intros e. unfold entryPayload. now rewrite Hm. }
  split.
  - destruct (generateBatchQRCodes_calls rt toDataURL st) as [n Hn].
    exists n. now rewrite Hn, P.
  - intros E. destruct (generateBatchQRCodes_made rt toDataURL st E) as [HF Hc].
    rewrite Hc. revert HF.
    generalize (batchCodes (fst (generateBatchQRCodes toDataURL st))).
    generalize (Spec.retained (batchEntries st)).
    intros kept codes HF. induction HF as [|e c kept codes Hec _ [IH1 IH2]].
    + split; [constructor | reflexivity].
    + destruct Hec as (_ & _ & Hf & _). unfold entryPayload in Hf. rewrite Hm in Hf.
      split; [constructor; [exact Hf | exact IH1]|].
      simpl. now rewrite IH2, Hf.
Qed.

Lemma promo_mode_payload_is_fixed_link_witness :
  mode promoRunState = yandex_ultima
  /\ error (fst (generateBatchQRCodes acceptingEncoder promoRunState)) = []
  /\ snd (generateBatchQRCodes acceptingEncoder promoRunState)
     = [str "https://8jxm.adj.st/addpromocode?adj_t=rf7a0p4_8cgc7kg&ref=qr&code=PROMO1"].
Proof.
  assert (E : error (fst (@generateBatchQRCodes exampleRuntime acceptingEncoder promoRunState))
              = []) by reflexivity.
  destruct (proj2 (promo_mode_payload_is_fixed_link exampleRuntime acceptingEncoder
                     promoRunState eq_refl) E) as [_ C].
  split; [reflexivity|]. split; [exact E | exact C].
Defined.

(** ** EPS export *)

Lemma fold_left_emit {A : Type} (keep : A -> bool) (emit : A -> jsstring)
  (l : list A) (eps0 : jsstring) :
  fold_left (fun eps a => if keep a then eps ++ emit a else eps) l eps0
  = eps0 ++ concat (map emit (filter keep l)).
Proof.
  revert eps0; induction l as [|a l IH]; intros eps0; simpl.
  - now rewrite app_nil_r.
  - rewrite IH. destruct (keep a); simpl; [now rewrite <- app_assoc | reflexivity].
Qed.

Lemma epsRow_text (data : list N) (width height y : nat) (eps0 : jsstring) :
  epsRow data width height y eps0
  = eps0 ++ concat (map (fun pixel => scanlineCall (fst pixel) (height - snd pixel))
                      (filter (Spec.isOpaque data width)
                         (map (fun x => (x, y)) (seq 0 width)))).
Proof.
  unfold epsRow.
  rewrite (fold_left_emit (fun x => alphaAbove128 data ((y * width + x) * 4))
             (fun x => scanlineCall x (height - y))).
  f_equal. f_equal. induction (seq 0 width) as [|x xs IH]; simpl; [reflexivity|].
  unfold Spec.isOpaque at 1, Spec.alphaAt, alphaAbove128 at 1. simpl fst; simpl snd.
  replace (4 * (y * width + x) + 3) with ((y * width + x) * 4 + 3) by lia.
  destruct (nth_error data ((y * width + x) * 4 + 3)) as [a|]; [|exact IH].
  destruct (128 <? a)%N; simpl; [now rewrite IH | exact IH].
Qed.

Lemma epsRows_text (data : list N) (width height : nat) (eps0 : jsstring) :
  epsRows data width height eps0 = eps0 ++ concat (Spec.scanlineCalls data width height).
Proof.
  unfold epsRows, Spec.scanlineCalls, Spec.rasterOrder.
  revert eps0. induction (seq 0 height) as [|y ys IH]; intros eps0; simpl.
  - now rewrite app_nil_r.
  - rewrite IH, epsRow_text, filter_app, map_app, concat_app, <- app_assoc. reflexivity.
Qed.

(** C8. For a canvas of width [w] and height [h] whose image data can be
    read, [convertCanvasToEPS] gives a header whose bounding box line reads
    [0 0 w h], then, for the pixels in row-major raster order, one invocation
    [x (h - y) scanline] for each pixel whose alpha byte exceeds 128 and none
    for the others, then the footer [showpage]; for the 2 by 2 fully opaque
    bitmap there are exactly 4 invocations and the bounding box reads
    [0 0 2 2]. *)
Theorem convertCanvasToEPS_one_scanline_per_opaque_pixel (canvas : HTMLCanvasElement) :
  convertCanvasToEPS canvas
  = option_map
      (fun data =>
         epsHeader (width canvas) (height canvas)
         ++ concat (Spec.scanlineCalls data (width canvas) (height canvas))
         ++ str "showpage" ++ [LF])
      (imageData canvas)
  /\ (exists definitions,
        forall w h,
          epsHeader w h
          = str "%!PS-Adobe-3.0 EPSF-3.0" ++ [LF]
            ++ str "%%BoundingBox: 0 0 " ++ natToString w ++ str " " ++ natToString h ++ [LF]
            ++ definitions)
  /\ (forall data,
        length (Spec.scanlineCalls data (width canvas) (height canvas))
        = length (filter (Spec.isOpaque data (width canvas))
                    (Spec.rasterOrder (width canvas) (height canvas))))
  /\ Spec.scanlineCalls [0; 0; 0; 255; 0; 0; 0; 255; 0; 0; 0; 255; 0; 0; 0; 255]%N 2 2
     = [str "0 2 scanline" ++ [LF]; str "1 2 scanline" ++ [LF];
        str "0 1 scanline" ++ [LF]; str "1 1 scanline" ++ [LF]]
  /\ convertCanvasToEPS opaque2x2
     = Some (str "%!PS-Adobe-3.0 EPSF-3.0" ++ [LF]
             ++ str "%%BoundingBox: 0 0 2 2" ++ [LF]
             ++ str "/scanline { % x y scanline" ++ [LF]
             ++ str "  /y exch def" ++ [LF]
             ++ str "  /x exch def" ++ [LF]
             ++ str "  x y moveto" ++ [LF]
             ++ str "  x 1 add y lineto" ++ [LF]
             ++ str "  stroke" ++ [LF]
             ++ str "} def" ++ [LF]
             ++ str "0.5 setlinewidth" ++ [LF]
             ++ str "0 setgray" ++ [LF]
             ++ str "0 2 scanline" ++ [LF]
             ++ str "1 2 scanline" ++ [LF]
             ++ str "0 1 scanline" ++ [LF]
             ++ str "1 1 scanline" ++ [LF]
             ++ str "showpage" ++ [LF]).
Proof.
  split; [|split; [|split; [|split]]].
  - unfold convertCanvasToEPS. destruct (imageData canvas) as [data|]; [|reflexivity].
    simpl. now rewrite epsRows_text, <- app_assoc.
  - eexists. intros w h. unfold epsHeader. rewrite <- !app_assoc. reflexivity.
  - intros data. unfold Spec.scanlineCalls. apply length_map.
  - reflexivity.
  - reflexivity.
Qed.

(** ** Archive export *)

Section ArchiveFacts.
Context {rt : JSRuntime}.
Variable drawImage : jsstring -> option HTMLCanvasElement.

Lemma replaced_as_map (s : jsstring) :
  replaceClassAll notAlphanumeric (str "_") s
  = map (fun c => if notAlphanumeric c then chr "_" else c) s.
Proof.
  unfold replaceClassAll. induction s as [|c s IH]; simpl; [reflexivity|].
  rewrite IH. now destruct (notAlphanumeric c).
Qed.

Lemma replaced_is_ascii (s : jsstring) :
  forallb isAscii (map (fun c => if notAlphanumeric c then chr "_" else c) s) = true.
Proof.
  induction s as [|c s IH]; [reflexivity|]. cbn [map forallb]. rewrite IH, andb_true_r.
  destruct (notAlphanumeric c) eqn:E; [reflexivity|].
  unfold notAlphanumeric in E. apply negb_false_iff in E.
  unfold isLowerAZ, isUpperAZ, isDigit, in_range, isAscii in *.
  rewrite !orb_true_iff, !andb_true_iff, !N.leb_le in E. apply N.ltb_lt. lia.
Qed.

Lemma sanitizedContent_replaces (s : jsstring) :
  sanitizedContent s = Spec.sanitizeReplacing s.
Proof.
  unfold sanitizedContent, Spec.sanitizeReplacing, slice0.
  rewrite replaced_as_map, (toLowerCase_ascii _ (replaced_is_ascii s)), map_map. f_equal.
  apply map_ext. intros c. now destruct (notAlphanumeric c).
Qed.

Lemma zipFilename_replaces (st : State) (code : BatchQRCode.t) :
  zipFilename st code = Spec.archiveName Spec.sanitizeReplacing st code.
Proof.
  unfold zipFilename, Spec.archiveName. now rewrite !sanitizedContent_replaces.
Qed.

Lemma zipLoop_names (st : State) (codes : list BatchQRCode.t) :
  (exists n, map fst (fst (zipLoop drawImage st codes))
             = map (Spec.archiveName Spec.sanitizeReplacing st) (firstn n codes))
  /\ (snd (zipLoop drawImage st codes) = true ->
      map fst (fst (zipLoop drawImage st codes))
      = map (Spec.archiveName Spec.sanitizeReplacing st) codes)
  /\ (fileFormat st = png -> snd (zipLoop drawImage st codes) = true).
Proof.
  induction codes as [|code rest (IH1 & IH2 & IH3)]; simpl.
  - split; [exists 0; reflexivity | split; reflexivity].
  - destruct IH1 as [n Hn]. destruct (fileFormat st) eqn:F.
    + destruct (zipLoop drawImage st rest) as [files ok]. simpl in *.
      rewrite zipFilename_replaces. split; [|split].
      * exists (S n). simpl. now rewrite Hn.
      * intros H. now rewrite (IH2 H).
      * intros _. now apply IH3.
    + destruct (drawImage (BatchQRCode.dataUrl code)) as [canvas|].
      * destruct (convertCanvasToEPS canvas) as [epsContent|].
        -- destruct (zipLoop drawImage st rest) as [files ok]. simpl in *.
           rewrite zipFilename_replaces. split; [|split].
           ++ exists (S n). simpl. now rewrite Hn.
           ++ intros H. now rewrite (IH2 H).
           ++ discriminate.
        -- simpl. split; [exists 0; reflexivity | split; discriminate].
      * simpl. split; [exists 0; reflexivity | split; discriminate].
Qed.

End ArchiveFacts.

(** C9, as stated, fails: the characters outside [a-z0-9] are not stripped.
    The code with content [a b] is filed as [a_b.png] on every runtime, where
    stripping gives [ab.png]. *)
Lemma archive_name_keeps_a_place_for_each_character :
  (forall (rt : JSRuntime) (drawImage : jsstring -> option HTMLCanvasElement),
      map fst (fst (downloadAllQRCodesAsZip drawImage spacedNameState)) = [str "a_b.png"])
  /\ map (Spec.archiveName Spec.sanitizeStripping spacedNameState) (batchCodes spacedNameState)
     = [str "ab.png"].
Proof.
  split; [|reflexivity].
  intros rt drawImage. unfold downloadAllQRCodesAsZip, spacedNameState. simpl.
  rewrite zipFilename_replaces. reflexivity.
Qed.

(** C9 (amended). Every file added to the archive is named, in the order of
    the codes: when the use-raw-content naming is on or the mode is the
    promo-link mode, by the sanitized content followed by [.] and the image
    format; otherwise by the sanitized [formattedContent] followed by [_], the
    type's name, [.] and the image format.  Sanitizing replaces every
    character outside [a-z0-9] (either case) by an underscore, lowers the
    letters and keeps the first 30 characters.  In the PNG format every code
    is added. *)
Theorem archive_file_names (rt : JSRuntime)
  (drawImage : jsstring -> option HTMLCanvasElement) (st : State) :
  (exists n,
      map fst (fst (downloadAllQRCodesAsZip drawImage st))
      = map (Spec.archiveName Spec.sanitizeReplacing st) (firstn n (batchCodes st)))
  /\ (snd (downloadAllQRCodesAsZip drawImage st) = true ->
      map fst (fst (downloadAllQRCodesAsZip drawImage st))
      = map (Spec.archiveName Spec.sanitizeReplacing st) (batchCodes st))
  /\ (fileFormat st = png -> snd (downloadAllQRCodesAsZip drawImage st) = true).
Proof.
  unfold downloadAllQRCodesAsZip.
  destruct (batchCodes st) as [|code rest] eqn:E.
  - split; [exists 0; reflexivity | split; reflexivity].
  - apply zipLoop_names.
Qed.

Lemma archive_file_names_witness :
  fileFormat defaultNameState = png
  /\ snd (downloadAllQRCodesAsZip (fun _ => None) defaultNameState) = true
  /\ map fst (fst (downloadAllQRCodesAsZip (fun _ => None) defaultNameState))
     = [str "https___example_com_path_url.png"].
Proof.
  destruct (archive_file_names exampleRuntime (fun _ => None) defaultNameState)
    as (_ & N & P).
  split; [reflexivity|]. split; [exact (P eq_refl) | exact (N (P eq_refl))].
Defined.

(** * Further properties of the component *)

(** ** Formatter and detector together *)

Lemma format_url_idempotent (rt : JSRuntime) (s : jsstring) :
  formatContentByType (formatContentByType s url) url = formatContentByType s url.
Proof.
  rewrite (format_url_cases s). destruct (RegExp.matchesPrefix httpPattern s) eqn:E.
  - rewrite format_url_cases, E. reflexivity.
  - rewrite format_url_cases.
    assert (M : RegExp.matchesPrefix httpPattern (str "https://" ++ s) = true).
    { apply matches_httpPattern. right. exists (str "https://"), s. split; reflexivity. }
    now rewrite M.
Qed.

Lemma format_wifi_shape (rt : JSRuntime) (s : jsstring) :
  formatContentByType s wifi = s
  \/ exists e ss p, formatContentByType s wifi = Spec.wifiPayload e ss p.
Proof.
  unfold formatContentByType. destruct (JSON.parse s) as [v|]; [|now left].
  destruct (fieldOr v "encryption" "WPA") as [e|]; [|now left].
  destruct (fieldOr v "ssid" "") as [ss|]; [|now left].
  destruct (fieldOr v "password" "") as [p|]; [|now left].
  right. now exists e, ss, p.
Qed.

Lemma format_wifi_idempotent (rt : JSRuntime) (s : jsstring) :
  formatContentByType (formatContentByType s wifi) wifi = formatContentByType s wifi.
Proof.
  destruct (format_wifi_shape rt s) as [E | [e [ss [p E]]]]; rewrite E.
  - exact E.
  - apply format_wifi_syntax_error, wifiPayload_not_JSON.
Qed.

(** X1. Formatting twice gives the same as formatting once on the kinds
    [text], [url] and [wifi], for every string, and on no other kind. *)
Theorem formatContentByType_idempotent_kinds (rt : JSRuntime) (type : ContentType) :
  (forall s, formatContentByType (formatContentByType s type) type = formatContentByType s type)
  <-> (type = text \/ type = url \/ type = wifi).
Proof.
  split.
  - intros H. destruct type; auto; exfalso; specialize (H []);
      revert H; unfold formatContentByType; simpl; discriminate.
  - intros [-> | [-> | ->]] s.
    + reflexivity.
    + apply format_url_idempotent.
    + apply format_wifi_idempotent.
Qed.

(** X2. Whatever the string, its [url] payload starts with [http://] or
    [https://] (in some case of the letters), and the detector takes that
    payload for a URL. *)
Theorem url_payload_is_detected_as_url (rt : JSRuntime) (s : jsstring) :
  Spec.HasHttpScheme (formatContentByType s url)
  /\ detectContentType (formatContentByType s url) = url.
Proof.
  assert (H : Spec.HasHttpScheme (formatContentByType s url)).
  { rewrite format_url_cases. destruct (RegExp.matchesPrefix httpPattern s) eqn:E.
    - now apply matches_httpPattern.
    - right. exists (str "https://"), s. split; reflexivity. }
  split; [exact H|]. apply detectContentType_cases. now left.
Qed.

Lemma blank_has_no_prefix (s : jsstring) (lit : string) (a : ascii) (rest : string) :
  lit = String a rest -> isWhiteSpace (asciiUpper (chr a)) = false ->
  (forall c, isWhiteSpace c = true -> asciiUpper c = c) ->
  Spec.isBlank s = true -> ~ Spec.StartsWithIgnoringCase s lit.
Proof.
  intros -> Ha Hup Hb [p [t [-> E]]]. unfold Spec.equalIgnoringCase in E.
  destruct p as [|c p]; [discriminate|]. unfold str in E. simpl in E. injection E as Ec _.
  unfold Spec.isBlank in Hb. simpl in Hb. apply andb_true_iff in Hb as [Hc _].
  rewrite (Hup c Hc) in Ec. subst c. unfold chr in Ha. congruence.
Qed.

Lemma white_space_is_not_a_letter (c : char16) : isWhiteSpace c = true -> asciiUpper c = c.
Proof.
  intros H. unfold asciiUpper. destruct (isLowerAZ c) eqn:L; [|reflexivity].
  exfalso. unfold isLowerAZ, isWhiteSpace, in_range in *.
  rewrite andb_true_iff, !N.leb_le in L.
  rewrite !orb_true_iff, !andb_true_iff, !N.leb_le, !N.eqb_eq in H. lia.
Qed.

Lemma blank_is_no_url (s : jsstring) : Spec.isBlank s = true -> ~ Spec.LooksLikeUrl s.
Proof.
  intros Hb [[H | H] | H]; revert H.
  - eapply blank_has_no_prefix; eauto using white_space_is_not_a_letter.
  - eapply blank_has_no_prefix; eauto using white_space_is_not_a_letter.
  - eapply blank_has_no_prefix; eauto using white_space_is_not_a_letter.
Qed.

Lemma blank_is_no_email (s : jsstring) : Spec.isBlank s = true -> ~ Spec.LooksLikeEmail s.
Proof.
  intros Hb (l & d & t & -> & [Hl Fl] & _).
  destruct l as [|c l]; [congruence|]. inversion Fl as [|? ? [Hc _] _]; subst.
  unfold Spec.isBlank in Hb. simpl in Hb. apply andb_true_iff in Hb as [Hb _]. congruence.
Qed.

Lemma blank_phone_iff (s : jsstring) :
  Spec.isBlank s = true -> (Spec.LooksLikePhone s <-> 8 <= length s <= 20).
Proof.
  intros Hb. unfold Spec.LooksLikePhone. split.
  - intros (body & [-> | ->] & L & _); [exact L|].
    unfold Spec.isBlank in Hb. simpl in Hb. discriminate.
  - intros L. exists s. split; [now left|]. split; [exact L|].
    apply Forall_forall. intros c Hc. right; left.
    unfold Spec.isBlank in Hb. rewrite forallb_forall in Hb. auto.
Qed.

Lemma blank_is_no_wifi (s : jsstring) : Spec.isBlank s = true -> ~ Spec.LooksLikeWifi s.
Proof.
  intros Hb [[t ->] _]. unfold Spec.isBlank in Hb. simpl in Hb. discriminate.
Qed.

(** X3. The detector never answers [sms].  A string of white space only is
    taken for a phone number when it has 8 to 20 characters, and for plain
    text otherwise (the empty string included). *)
Theorem detectContentType_never_sms_and_blank (s : jsstring) :
  detectContentType s <> sms
  /\ (Spec.isBlank s = true ->
      detectContentType s = if (8 <=? length s) && (length s <=? 20) then phone else text).
Proof.
  split.
  - unfold detectContentType.
    destruct (RegExp.matchesPrefix urlPattern s); [discriminate|].
    destruct (RegExp.matchesWhole emailPattern s); [discriminate|].
    destruct (RegExp.matchesWhole phonePattern s); [discriminate|].
    destruct ((startsWith s (str "{") && endsWith s (str "}")) && includes s (str "ssid"));
      discriminate.
  - intros Hb. destruct (detectContentType_cases s) as (_ & _ & P & _ & T).
    pose proof (blank_is_no_url s Hb) as NU. pose proof (blank_is_no_email s Hb) as NE.
    pose proof (blank_phone_iff s Hb) as BP. pose proof (blank_is_no_wifi s Hb) as NW.
    destruct ((8 <=? length s) && (length s <=? 20)) eqn:L.
    + apply andb_true_iff in L as [L1 L2]. apply Nat.leb_le in L1, L2.
      apply P. repeat split; auto. apply BP. lia.
    + apply T. repeat split; auto. intros H. apply BP in H.
      apply andb_false_iff in L as [L | L]; apply Nat.leb_gt in L; lia.
Qed.

Lemma detectContentType_never_sms_and_blank_witness :
  Spec.isBlank (str "         ") = true
  /\ detectContentType (str "         ") = phone.
Proof.
  split; [reflexivity|].
  exact (proj2 (detectContentType_never_sms_and_blank (str "         ")) eq_refl).
Defined.

(** X4. The preview shown under the single-code input for the [url] type is
    the payload the formatter builds for that input. *)
Theorem urlPreview_is_the_payload (rt : JSRuntime) (input : jsstring) :
  urlPreview input = formatContentByType input url.
Proof.
  rewrite format_url_cases. reflexivity.
Qed.

(** ** The single-code form *)

(** X5. [generateQRCode] refuses the empty text with [Please enter some
    content] and keeps the code shown; for any other text, white space
    included, it either stores the data URL the encoder gives for the
    formatted text and clears the error, or, when a call of the encoder
    throws, reports [Failed to generate QR code] and keeps the code shown.
    It never changes the text or the type, and ends with the busy flag off
    when it had something to encode. *)
Theorem generateQRCode_outcomes (rt : JSRuntime) (toCanvas : jsstring -> bool)
  (toDataURL : jsstring -> option jsstring) (c : Component.t) :
  let c' := generateQRCode toCanvas toDataURL c in
  let payload := formatContentByType (Component.text c) (Component.contentType c) in
  Component.text c' = Component.text c
  /\ Component.contentType c' = Component.contentType c
  /\ (Component.text c = [] ->
      error (Component.core c') = str "Please enter some content"
      /\ Component.qrCodeUrl c' = Component.qrCodeUrl c)
  /\ (Component.text c <> [] ->
      Component.isGeneratingSingle c' = false
      /\ ((error (Component.core c') = []
           /\ toDataURL payload = Some (Component.qrCodeUrl c')
           /\ (Component.canvasRef c = true -> toCanvas payload = true))
          \/ (error (Component.core c') = str "Failed to generate QR code"
              /\ Component.qrCodeUrl c' = Component.qrCodeUrl c
              /\ ((Component.canvasRef c = true /\ toCanvas payload = false)
                  \/ toDataURL payload = None)))).
Proof.
  cbv zeta. unfold generateQRCode. destruct (Component.text c) as [|x t] eqn:T.
  - simpl. rewrite ?T. repeat split; auto; congruence.
  - destruct (Component.canvasRef c) eqn:R;
      destruct (toCanvas (formatContentByType (x :: t) (Component.contentType c))) eqn:K;
      destruct (toDataURL (formatContentByType (x :: t) (Component.contentType c))) eqn:D;
      simpl; rewrite ?T;
      (split; [reflexivity|]); (split; [reflexivity|]); (split; [congruence|]);
      intros _; (split; [reflexivity|]);
      first [ left; repeat split; auto; congruence
            | right; repeat split; auto ].
Qed.

(** X6. White space is content for the single-code form and none for the
    batch form: a non-empty text of white space only is handed to the encoder
    as it is by [generateQRCode] (type [text]), while a batch whose entries
    all hold white space only is refused without any encoder call. *)
Theorem blank_text_single_versus_batch (rt : JSRuntime) (toCanvas : jsstring -> bool)
  (toDataURL : jsstring -> option jsstring) (c : Component.t) (st : State) (dataUrl : jsstring) :
  Component.text c <> [] ->
  Component.contentType c = text ->
  toCanvas (Component.text c) = true ->
  toDataURL (Component.text c) = Some dataUrl ->
  Forall (fun entry => Spec.isBlank (BatchEntry.content entry) = true) (batchEntries st) ->
  Component.qrCodeUrl (generateQRCode toCanvas toDataURL c) = dataUrl
  /\ error (Component.core (generateQRCode toCanvas toDataURL c)) = []
  /\ error (fst (generateBatchQRCodes toDataURL st))
     = str "Please enter content for at least one QR code"
  /\ snd (generateBatchQRCodes toDataURL st) = []
  /\ batchCodes (fst (generateBatchQRCodes toDataURL st)) = batchCodes st.
Proof.
  intros T Ht Hc Hd Hb.
  assert (K : Spec.retained (batchEntries st) = []).
  { unfold Spec.retained. induction Hb as [|e l He _ IH]; simpl; [reflexivity|].
    now rewrite He. }
  apply hasContent_retained in K.
  unfold generateQRCode, generateBatchQRCodes. rewrite K. simpl.
  destruct (Component.text c) as [|x t] eqn:E; [congruence|].
  rewrite Ht. simpl formatContentByType. rewrite Hc, Hd, andb_false_r. simpl. auto.
Qed.

(** A single-code form holding three spaces, and a batch form holding one
    entry of three spaces. *)
Lemma blank_text_single_versus_batch_witness :
  Component.qrCodeUrl
    (generateQRCode (fun _ => true) acceptingEncoder
       (Component.mk batchRunState (str "   ") text [] false false (fun _ => 0) false true))
  = str "data:image/png;base64,   "
  /\ snd (generateBatchQRCodes acceptingEncoder
            (mkState batch [BatchEntry.mk (str "   ") url] [] [] false true false false png))
     = [].
Proof.
  destruct (blank_text_single_versus_batch exampleRuntime (fun _ => true) acceptingEncoder
              (Component.mk batchRunState (str "   ") text [] false false (fun _ => 0) false true)
              (mkState batch [BatchEntry.mk (str "   ") url] [] [] false true false false png)
              (str "data:image/png;base64,   "))
    as (A & _ & _ & B & _).
  - discriminate.
  - reflexivity.
  - reflexivity.
  - reflexivity.
  - repeat constructor.
  - split; [exact A | exact B].
Defined.

(** X7. Typing a value that is not white space only and then generating
    encodes the value formatted for the type the detector finds in it: the
    data URL stored is the encoder's for that payload. *)
Theorem typed_value_is_encoded_for_its_detected_type (rt : JSRuntime)
  (toCanvas : jsstring -> bool) (toDataURL : jsstring -> option jsstring)
  (c : Component.t) (value dataUrl : jsstring) :
  Spec.isBlank value = false ->
  toCanvas (formatContentByType value (detectContentType value)) = true ->
  toDataURL (formatContentByType value (detectContentType value)) = Some dataUrl ->
  let c' := generateQRCode toCanvas toDataURL (handleTextChange value c) in
  Component.qrCodeUrl c' = dataUrl
  /\ Component.contentType c' = detectContentType value
  /\ error (Component.core c') = [].
Proof.
  intros Hb Hc Hd. cbv zeta. unfold generateQRCode, handleTextChange. simpl.
  rewrite truthy_trim, Hb. simpl.
  destruct value as [|x v]; [discriminate|].
  rewrite Hc, Hd, andb_false_r. simpl. auto.
Qed.

Lemma typed_value_is_encoded_for_its_detected_type_witness :
  Component.qrCodeUrl
    (generateQRCode (fun _ => true) acceptingEncoder
       (handleTextChange (str "www.example.com")
          (Component.mk batchRunState [] text [] false false (fun _ => 0) false true)))
  = str "data:image/png;base64,https://www.example.com".
Proof.
  destruct (typed_value_is_encoded_for_its_detected_type exampleRuntime (fun _ => true)
              acceptingEncoder
              (Component.mk batchRunState [] text [] false false (fun _ => 0) false true)
              (str "www.example.com") (str "data:image/png;base64,https://www.example.com"))
    as (A & _).
  - reflexivity.
  - reflexivity.
  - reflexivity.
  - exact A.
Defined.

(** ** The batch run: errors *)

Lemma batchLoop_rejected (rt : JSRuntime) (toDataURL : jsstring -> option jsstring)
  (m : Mode) (entries : list BatchEntry.t) (acc : list BatchQRCode.t) (calls : list jsstring) :
  batchLoop toDataURL m entries acc = (calls, None) ->
  exists done entry rest,
    Spec.retained entries = done ++ entry :: rest
    /\ Forall (fun e => toDataURL (entryPayload m e) <> None) done
    /\ toDataURL (entryPayload m entry) = None
    /\ calls = map (entryPayload m) (done ++ [entry]).
Proof.
  revert acc calls; induction entries as [|e l IH]; intros acc calls; simpl; [discriminate|].
  rewrite truthy_trim. destruct (negb (Spec.isBlank (BatchEntry.content e))); [|apply IH].
  destruct (toDataURL (entryPayload m e)) as [d|] eqn:D.
  - destruct (batchLoop toDataURL m l _) as [calls' r] eqn:L.
    intros H. injection H as <- ->.
    apply IH in L as (done & entry & rest & E & F & R & C).
    exists (e :: done), entry, rest. simpl. rewrite E, C.
    repeat split; auto. constructor; [congruence | exact F].
  - intros H. injection H as <-. exists [], e, (Spec.retained l). repeat split; auto.
Qed.

(** X8. The error a batch run ends with tells what happened: [Please enter
    content for at least one QR code] exactly when every entry is white space
    only; [Failed to generate batch QR codes] exactly when the encoder
    rejects the payload of some kept entry; no error exactly when it accepts
    them all.  A run that ends with an error stores no code, not even those
    already encoded: the codes of the earlier run stay. *)
Theorem generateBatchQRCodes_errors (rt : JSRuntime)
  (toDataURL : jsstring -> option jsstring) (st : State) :
  let kept := Spec.retained (batchEntries st) in
  let st' := fst (generateBatchQRCodes toDataURL st) in
  (error st' = str "Please enter content for at least one QR code" <-> kept = [])
  /\ (error st' = str "Failed to generate batch QR codes" <->
      Exists (fun entry => toDataURL (entryPayload (mode st) entry) = None) kept)
  /\ (error st' = [] <->
      kept <> [] /\ Forall (fun entry => toDataURL (entryPayload (mode st) entry) <> None) kept)
  /\ (error st' <> [] -> batchCodes st' = batchCodes st).
Proof.
  cbv zeta. pose proof (hasContent_retained (batchEntries st)) as HK.
  unfold generateBatchQRCodes.
  destruct (existsb _ (batchEntries st)) eqn:E; simpl.
  - assert (K : Spec.retained (batchEntries st) <> [])
      by (intros K; apply HK in K; congruence).
    destruct (batchLoop toDataURL (mode st) (batchEntries st) []) as [calls [results|]] eqn:L;
      simpl.
    + apply batchLoop_result in L as (codes & _ & F & _).
      assert (A : Forall (fun entry => toDataURL (entryPayload (mode st) entry) <> None)
                    (Spec.retained (batchEntries st))).
      { clear K HK E. induction F as [|e c l l' (_ & _ & Hf & Hd) _ IH]; constructor; auto.
        rewrite <- Hf, Hd. discriminate. }
      repeat split; auto; try discriminate; try congruence.
      all: try (intros X; apply Exists_exists in X as (e & He & Hn);
                rewrite Forall_forall in A; now apply A in He).
      all: try (intros X; now contradiction X).
    + apply batchLoop_rejected in L as (done & entry & rest & Ek & _ & R & _).
      repeat split; auto; try discriminate; try congruence.
      all: try (intros _; rewrite Ek; apply Exists_app; right; now constructor).
      all: try (intros [_ A]; rewrite Ek in A; apply Forall_app in A as [_ A];
                inversion A; subst; congruence).
  - assert (K : Spec.retained (batchEntries st) = []) by now apply HK.
    rewrite K. repeat split; auto; try discriminate; try congruence.
    all: try (intros X; now inversion X).
    all: try (intros [X _]; congruence).
Qed.

(** ** The entries of the batch form *)

Lemma in_firstn_in {A : Type} (n : nat) (l : list A) (x : A) : In x (firstn n l) -> In x l.
Proof. intros H. rewrite <- (firstn_skipn n l). apply in_or_app. now left. Qed.

Lemma in_skipn_in {A : Type} (n : nat) (l : list A) (x : A) : In x (skipn n l) -> In x l.
Proof. intros H. rewrite <- (firstn_skipn n l). apply in_or_app. now right. Qed.

Lemma assignAt_content_keeps (index : nat) (value : jsstring)
  (entries newEntries : list BatchEntry.t) :
  assignAt index (UpdateContent value) entries = Some newEntries ->
  length newEntries = length entries
  /\ map BatchEntry.type newEntries = map BatchEntry.type entries.
Proof.
  revert index newEntries; induction entries as [|e l IH]; intros [|i] newEntries; simpl;
    try discriminate.
  - intros H. injection H as <-. now split.
  - destruct (assignAt i (UpdateContent value) l) as [l'|] eqn:A; simpl; [|discriminate].
    intros H. injection H as <-. destruct (IH i l' A) as [L T]. simpl. now rewrite L, T.
Qed.

Lemma textFileLoaded_entries (content : jsstring) (c : Component.t) :
  batchEntries (Component.core (textFileLoaded content c)) = batchEntries (Component.core c)
  \/ (exists line lines,
        filter (fun l => negb (eqbString (trim l) [])) (splitLines content) = line :: lines
        /\ batchEntries (Component.core (textFileLoaded content c))
           = map (fun l => BatchEntry.mk (trim l) text) (line :: lines)).
Proof.
  unfold textFileLoaded. destruct content as [|x s]; [now left|].
  destruct (filter _ (splitLines (x :: s))) as [|line lines] eqn:F; [now left|].
  right. exists line, lines. split; reflexivity.
Qed.

Lemma FormEntries_invariant (entries : list BatchEntry.t) :
  FormEntries entries ->
  entries <> [] /\ Forall (fun entry => BatchEntry.type entry = text) entries.
Proof.
  induction 1 as [ | st _ [N T] | index st _ [N T] | index value st st' _ [N T] U
                 | content c _ [N T] | contentRows c _ [N T] | c _ _ | newMode c _ [N T] ].
  - split; [discriminate | repeat constructor].
  - simpl. split.
    + intros E. apply app_eq_nil in E as [_ E]. discriminate.
    + apply Forall_app. split; [exact T | repeat constructor].
  - unfold removeBatchEntry. destruct (1 <? length (batchEntries st)) eqn:L; [|now split].
    apply Nat.ltb_lt in L. simpl. unfold spliceOne. split.
    + intros E. apply (f_equal (@length _)) in E.
      rewrite length_app, length_firstn, length_skipn in E. simpl in E. lia.
    + apply Forall_app. split.
      * apply Forall_forall. intros e He. rewrite Forall_forall in T.
        apply T. now apply in_firstn_in in He.
      * apply Forall_forall. intros e He. rewrite Forall_forall in T.
        apply T. now apply in_skipn_in in He.
  - unfold updateBatchEntry in U.
    destruct (assignAt index (UpdateContent value) (batchEntries st)) as [l|] eqn:A;
      [|discriminate].
    injection U as <-. simpl. destruct (assignAt_content_keeps _ _ _ _ A) as [L M]. split.
    + intros ->. destruct (batchEntries st); [congruence | discriminate].
    + apply Forall_forall. intros e He.
      apply (in_map BatchEntry.type) in He. rewrite M in He.
      apply in_map_iff in He as (e' & <- & He'). rewrite Forall_forall in T. now apply T.
  - destruct (textFileLoaded_entries content c) as [-> | (line & lines & _ & ->)];
      [now split|].
    split; [discriminate|]. apply Forall_forall. intros e He.
    apply in_map_iff in He as (l & <- & _). reflexivity.
  - destruct contentRows as [|row rows]; [now split|].
    split; [discriminate|]. apply Forall_forall. intros e He.
    apply in_map_iff in He as (l & <- & _). reflexivity.
  - split; [discriminate | repeat constructor].
  - destruct newMode; simpl; try (split; [discriminate | repeat constructor]). now split.
Qed.

(** X9. The batch form never holds an empty list of entries, and every
    entry it holds has the type [text]: adding, removing, editing the
    content, uploading a file, clearing and switching the mode all keep
    both. *)
Theorem form_entries_are_text_and_never_empty (entries : list BatchEntry.t) :
  FormEntries entries ->
  entries <> [] /\ Forall (fun entry => BatchEntry.type entry = text) entries.
Proof. exact (FormEntries_invariant entries). Qed.

(** X10. Outside the promo-link mode, a run over entries of the batch form
    encodes every content as it is: as the form's entries all have the type
    [text], the payload of every code produced is its content, whatever the
    content looks like. *)
Theorem form_batch_payload_is_the_content (rt : JSRuntime)
  (toDataURL : jsstring -> option jsstring) (st : State) :
  FormEntries (batchEntries st) ->
  mode st <> yandex_ultima ->
  error (fst (generateBatchQRCodes toDataURL st)) = [] ->
  Forall (fun code => BatchQRCode.formattedContent code = BatchQRCode.content code
                      /\ BatchQRCode.type code = text)
    (batchCodes (fst (generateBatchQRCodes toDataURL st)))
  /\ snd (generateBatchQRCodes toDataURL st)
     = map BatchEntry.content (Spec.retained (batchEntries st)).
Proof.
  intros F M E. apply FormEntries_invariant in F as [_ T].
  destruct (generateBatchQRCodes_made rt toDataURL st E) as [HF ->].
  assert (TK : Forall (fun entry => BatchEntry.type entry = text)
                 (Spec.retained (batchEntries st))).
  { apply Forall_forall. intros e He. apply filter_In in He as [He _].
    rewrite Forall_forall in T. now apply T. }
  revert HF TK. generalize (batchCodes (fst (generateBatchQRCodes toDataURL st))).
  generalize (Spec.retained (batchEntries st)).
  intros kept codes HF. induction HF as [|e c kept codes (Hc & Ht & Hf & _) _ IH]; intros TK.
  - split; constructor.
  - inversion TK as [|? ? Te TK']; subst. destruct (IH TK') as [I1 I2].
    assert (P : BatchQRCode.formattedContent c = BatchEntry.content e).
    { rewrite Hf. unfold entryPayload. rewrite Te.
      destruct (mode st); try reflexivity. congruence. }
    split.
    + constructor; [|exact I1]. split; congruence.
    + simpl. now rewrite I2, P.
Qed.

Lemma form_batch_payload_is_the_content_witness :
  FormEntries (batchEntries editedFormState)
  /\ snd (generateBatchQRCodes acceptingEncoder editedFormState)
     = [str "www.example.com"; str "a@b.co"].
Proof.
  assert (F : FormEntries (batchEntries editedFormState)).
  { pose (s0 := mkState batch [blankEntry] [] [] false true false false png).
    apply (FormEdit 1 (str "a@b.co")
             (setBatchEntries [BatchEntry.mk (str "www.example.com") text; blankEntry] s0)
             editedFormState); [|reflexivity].
    apply (FormEdit 0 (str "www.example.com") (addBatchEntry s0)
             (setHasNewEntries true
                (setBatchEntries [BatchEntry.mk (str "www.example.com") text; blankEntry]
                   (addBatchEntry s0)))); [|reflexivity].
    apply (FormAdd s0). apply FormInitial. }
  split; [exact F|].
  refine (proj2 (form_batch_payload_is_the_content exampleRuntime acceptingEncoder
                   editedFormState F _ eq_refl)).
  discriminate.
Defined.

(** ** Text file upload *)

















(** ** File names *)

Lemma sanitizeReplacing_chars (s : jsstring) :
  forallb isFileNameChar (Spec.sanitizeReplacing s) = true
  /\ length (Spec.sanitizeReplacing s) <= 30.
Proof.
  unfold Spec.sanitizeReplacing. split; [|apply firstn_le_length].
  apply forallb_forall. intros c Hc. apply in_firstn_in in Hc.
  apply in_map_iff in Hc as (x & <- & _).
  destruct (notAlphanumeric x) eqn:E; [reflexivity|].
  unfold notAlphanumeric in E. apply negb_false_iff in E.
  unfold isFileNameChar, asciiLower, isLowerAZ, isUpperAZ, isDigit, in_range in *.
  rewrite !orb_true_iff, !andb_true_iff, !N.leb_le in E.
  destruct ((65 <=? x)%N && (x <=? 90)%N) eqn:U.
  - apply andb_true_iff in U as [U1 U2]. apply N.leb_le in U1, U2.
    rewrite !orb_true_iff, !andb_true_iff, !N.leb_le. left; left; left. lia.
  - rewrite !orb_true_iff, !andb_true_iff, !N.leb_le.
    apply andb_false_iff in U. rewrite !N.leb_gt in U.
    destruct E as [[E | E] | E]; [left; left; left; lia | exfalso; lia | left; left; right; lia].
Qed.

Lemma short_sanitized (rt : JSRuntime) (s : jsstring) :
  toLowerCase (replaceClassAll notAlphanumeric (str "_") (slice0 20 s))
  = firstn 20 (Spec.sanitizeReplacing s).
Proof.
  rewrite replaced_as_map, (toLowerCase_ascii _ (replaced_is_ascii _)), map_map.
  unfold Spec.sanitizeReplacing, slice0.
  rewrite firstn_firstn. simpl Nat.min. rewrite firstn_map. apply map_ext.
  intros c. now destruct (notAlphanumeric c).
Qed.

Lemma names_of_kinds (t : ContentType) (f : FileFormat) :
  forallb isFileNameChar (contentTypeName t) = true
  /\ length (contentTypeName t) <= 5
  /\ forallb isFileNameChar (fileFormatName f) = true
  /\ length (fileFormatName f) = 3.
Proof. destruct t, f; repeat split; simpl; auto; lia. Qed.

(** X13. Every file name the component builds, for an archive member, for
    the download of one code of a batch and for the download of the single
    code, is made of lower-case letters, digits, underscores and dots only,
    and is at most 40 characters long.  When the raw content names the files
    (the naming option is on, or the mode is the promo-link mode) the archive
    and the download of one code give a code the same name. *)
Theorem file_names_are_plain (rt : JSRuntime) (st : State) (code : BatchQRCode.t)
  (c : Component.t) (name href : jsstring) :
  (forallb isFileNameChar (zipFilename st code) = true
   /\ length (zipFilename st code) <= 40)
  /\ (forallb isFileNameChar
        (fst (downloadBatchQRCode st (BatchQRCode.dataUrl code) (BatchQRCode.content code)
                (BatchQRCode.type code))) = true
      /\ length (fst (downloadBatchQRCode st (BatchQRCode.dataUrl code)
                        (BatchQRCode.content code) (BatchQRCode.type code))) <= 40)
  /\ (downloadQRCode c = Some (name, href) ->
      forallb isFileNameChar name = true /\ length name <= 40)
  /\ (useContentAsFilename st || isYandexUltima (mode st) = true ->
      fst (downloadBatchQRCode st (BatchQRCode.dataUrl code) (BatchQRCode.content code)
             (BatchQRCode.type code))
      = zipFilename st code).
Proof.
  pose proof (sanitizeReplacing_chars (BatchQRCode.content code)) as [C1 C2].
  pose proof (sanitizeReplacing_chars (BatchQRCode.formattedContent code)) as [F1 F2].
  pose proof (names_of_kinds (BatchQRCode.type code) (fileFormat st)) as (T1 & T2 & X1 & X2).
  split; [|split; [|split]].
  - rewrite zipFilename_replaces. unfold Spec.archiveName.
    destruct (useContentAsFilename st || isYandexUltima (mode st));
      rewrite !forallb_app, !length_app, ?C1, ?F1, ?T1, ?X1; simpl; split; auto; lia.
  - unfold downloadBatchQRCode. cbn [fst].
    destruct (useContentAsFilename st || isYandexUltima (mode st)).
    + rewrite sanitizedContent_replaces, !forallb_app, !length_app, C1, X1.
      simpl. split; auto; lia.
    + rewrite short_sanitized.
      assert (S1 : forallb isFileNameChar
                     (firstn 20 (Spec.sanitizeReplacing (BatchQRCode.content code))) = true).
      { apply forallb_forall. intros x Hx. apply in_firstn_in in Hx.
        rewrite forallb_forall in C1. now apply C1. }
      assert (S2 : length (firstn 20 (Spec.sanitizeReplacing (BatchQRCode.content code)))
                   <= 20) by apply firstn_le_length.
      assert (P : forallb isFileNameChar
                    match BatchQRCode.type code with
                    | text => []
                    | _ => contentTypeName (BatchQRCode.type code) ++ str "_"
                    end = true
                  /\ length match BatchQRCode.type code with
                            | text => []
                            | _ => contentTypeName (BatchQRCode.type code) ++ str "_"
                            end <= 6)
        by (destruct (BatchQRCode.type code); simpl; split; auto; lia).
      destruct P as [P1 P2]. revert P1 P2 S1 S2.
      generalize (firstn 20 (Spec.sanitizeReplacing (BatchQRCode.content code))).
      generalize (match BatchQRCode.type code with
                  | text => []
                  | _ => contentTypeName (BatchQRCode.type code) ++ str "_"
                  end).
      intros pre short P1 P2 S1 S2.
      rewrite !forallb_app, !length_app, P1, S1, X1. simpl. split; auto; lia.
  - unfold downloadQRCode. destruct (Component.qrCodeUrl c); [discriminate|].
    intros H. injection H as <- _.
    pose proof (sanitizeReplacing_chars (Component.text c)) as [S1 S2].
    pose proof (names_of_kinds text (fileFormat (Component.core c))) as (_ & _ & Y1 & Y2).
    revert Y1 Y2. generalize (fileFormatName (fileFormat (Component.core c))).
    intros fmt Y1 Y2.
    destruct (useContentAsFilename (Component.core c) && truthyString (Component.text c)).
    + rewrite sanitizedContent_replaces, forallb_app, length_app, S1.
      simpl. rewrite Y1, Y2. split; [reflexivity | lia].
    + simpl. rewrite Y1, Y2. split; [reflexivity | lia].
  - intros H. unfold downloadBatchQRCode, zipFilename. now rewrite H.
Qed.




(** ** EPS export: bounds *)

Lemma rasterOrder_pixels (width height x y : nat) :
  In (x, y) (Spec.rasterOrder width height) <-> x < width /\ y < height.
Proof.
  unfold Spec.rasterOrder. rewrite in_flat_map. split.
  - intros (r & Hr & Hx). apply in_seq in Hr. apply in_map_iff in Hx as (k & E & Hk).
    injection E as -> ->. apply in_seq in Hk. lia.
  - intros [Hx Hy]. exists y. split; [apply in_seq; lia|].
    apply in_map_iff. exists x. split; [reflexivity | apply in_seq; lia].
Qed.

Lemma rasterOrder_size (width height : nat) :
  length (Spec.rasterOrder width height) = height * width.
Proof.
  unfold Spec.rasterOrder.
  assert (G : forall rows : list nat,
             length (flat_map (fun y => map (fun x => (x, y)) (seq 0 width)) rows)
             = length rows * width).
  { induction rows as [|y ys IH]; simpl; [reflexivity|].
    now rewrite length_app, length_map, length_seq, IH. }
  now rewrite G, length_seq.
Qed.

(** X16. A canvas without readable image data is rejected, and no other
    canvas is.  For a canvas with image data the EPS text is the header, a
    run of invocations and the footer, where there are at most
    [width * height] invocations and each is [x y scanline] for a column [x]
    below the width and a row coordinate [y = height - row] for a bitmap row
    below the height, so from 1 to the height: the top row of the bitmap is
    drawn at [y = height], the bottom row at [y = 1], and no invocation has
    [y = 0]. *)
Theorem convertCanvasToEPS_stays_in_bounds (canvas : HTMLCanvasElement) :
  (convertCanvasToEPS canvas = None <-> imageData canvas = None)
  /\ match imageData canvas with
     | None => convertCanvasToEPS canvas = None
     | Some data =>
         exists calls,
           convertCanvasToEPS canvas
           = Some (epsHeader (width canvas) (height canvas) ++ concat calls
                   ++ str "showpage" ++ [LF])
           /\ length calls <= width canvas * height canvas
           /\ Forall (fun call =>
                        exists x row,
                          x < width canvas /\ row < height canvas
                          /\ 1 <= height canvas - row <= height canvas
                          /\ call = scanlineCall x (height canvas - row)) calls
     end.
Proof.
  unfold convertCanvasToEPS. destruct (imageData canvas) as [data|].
  2:{ split; [split; reflexivity | reflexivity]. }
  split; [split; discriminate|].
  exists (Spec.scanlineCalls data (width canvas) (height canvas)).
  split; [simpl; now rewrite epsRows_text, <- app_assoc|].
  unfold Spec.scanlineCalls. split.
  - rewrite length_map.
    etransitivity; [apply filter_length_le|].
    rewrite rasterOrder_size. lia.
  - apply Forall_forall. intros call Hc. apply in_map_iff in Hc as ([x y] & <- & Hp).
    apply filter_In in Hp as [Hp _]. apply rasterOrder_pixels in Hp.
    exists x, y. simpl. repeat split; try lia.
Qed.

(** ** The primary button after a run *)

Lemma generateBatchQRCodes_flags (rt : JSRuntime)
  (toDataURL : jsstring -> option jsstring) (st : State) :
  (Spec.retained (batchEntries st) = [] ->
   hasNewEntries (fst (generateBatchQRCodes toDataURL st)) = hasNewEntries st
   /\ batchCodes (fst (generateBatchQRCodes toDataURL st)) = batchCodes st)
  /\ (Spec.retained (batchEntries st) <> [] ->
      hasNewEntries (fst (generateBatchQRCodes toDataURL st)) = false
      /\ isGenerating (fst (generateBatchQRCodes toDataURL st)) = false
      /\ (error (fst (generateBatchQRCodes toDataURL st)) <> [] ->
          batchCodes (fst (generateBatchQRCodes toDataURL st)) = batchCodes st)).
Proof.
  pose proof (hasContent_retained (batchEntries st)) as HK.
  unfold generateBatchQRCodes. destruct (existsb _ (batchEntries st)); simpl.
  - split; [intros K; apply HK in K; discriminate|]. intros _.
    destruct (batchLoop toDataURL (mode st) (batchEntries st) []) as [calls [results|]];
      simpl; repeat split; auto. intros X. now contradiction X.
  - split; [now split|]. intros K. exfalso. apply K, HK. reflexivity.
Qed.

(** X17. After a batch run over at least one entry that is not white space
    only, the primary button no longer generates: its click handler is
    [resetBatchQR], whether the run produced codes or failed.  After a failed
    first run (no code stored yet) the button still reads [Generate all], and
    clicking it clears the entries. *)
Theorem primary_button_after_a_run (rt : JSRuntime)
  (toDataURL : jsstring -> option jsstring) (st : State) :
  Spec.retained (batchEntries st) <> [] ->
  let st' := fst (generateBatchQRCodes toDataURL st) in
  primaryAction st' = RunReset
  /\ (error st' <> [] -> batchCodes st = [] ->
      primaryLabel st' = str "Generate all"
      /\ batchEntries st' = batchEntries st)
  /\ (error st' = [] -> primaryLabel st' = str "Clear All").
Proof.
  intros K. cbv zeta.
  destruct (proj2 (generateBatchQRCodes_flags rt toDataURL st) K) as (H & _ & C).
  unfold primaryAction, primaryLabel. rewrite H. split; [reflexivity|]. split.
  - intros E B. rewrite (C E), B. split; [reflexivity|].
    unfold generateBatchQRCodes.
    destruct (negb (existsb _ (batchEntries st))); [reflexivity|].
    now destruct (batchLoop toDataURL (mode st) (batchEntries st) []) as [calls [results|]].
  - intros E. destruct (generateBatchQRCodes_made rt toDataURL st E) as [HF _].
    destruct HF; [congruence | reflexivity].
Qed.

Lemma primary_button_after_a_run_witness :
  primaryAction (fst (generateBatchQRCodes (fun _ => None) batchRunState)) = RunReset
  /\ primaryLabel (fst (generateBatchQRCodes (fun _ => None) batchRunState))
     = str "Generate all".
Proof.
  destruct (primary_button_after_a_run exampleRuntime (fun _ => None) batchRunState)
    as (A & B & _).
  - discriminate.
  - split; [exact A|]. apply B; [discriminate | reflexivity].
Defined.

(** ** Editing the entries *)

Lemma spliceOne_last {A : Type} (l : list A) (x : A) : spliceOne (length l) (l ++ [x]) = l.
Proof.
  unfold spliceOne.
  rewrite (skipn_all2 (n := S (length l))) by (rewrite length_app; simpl; lia).
  rewrite firstn_app, firstn_all, Nat.sub_diag, firstn_0. now rewrite !app_nil_r.
Qed.

(** X18. [removeBatchEntry] never removes the last entry left: with one
    entry (or none) the state is unchanged.  With more, removing at an index
    of the list makes the list one shorter, keeping the entries before the
    index and moving those after it down by one; an index past the end
    removes nothing.  Removing the entry that [addBatchEntry] has just added
    gives back the entries there were. *)
Theorem removeBatchEntry_behaviour (index : nat) (st : State) :
  (length (batchEntries st) <= 1 -> removeBatchEntry index st = st)
  /\ (1 < length (batchEntries st) -> index < length (batchEntries st) ->
      length (batchEntries (removeBatchEntry index st)) = length (batchEntries st) - 1
      /\ (forall i, i < index ->
            nth_error (batchEntries (removeBatchEntry index st)) i
            = nth_error (batchEntries st) i)
      /\ (forall i, index <= i ->
            nth_error (batchEntries (removeBatchEntry index st)) i
            = nth_error (batchEntries st) (S i)))
  /\ (length (batchEntries st) <= index ->
      batchEntries (removeBatchEntry index st) = batchEntries st)
  /\ (batchEntries st <> [] ->
      batchEntries (removeBatchEntry (length (batchEntries st)) (addBatchEntry st))
      = batchEntries st).
Proof.
  unfold removeBatchEntry. split; [|split; [|split]].
  - intros L. apply Nat.ltb_ge in L. now rewrite L.
  - intros L I. pose proof L as L'. apply Nat.ltb_lt in L'. rewrite L'.
    cbn [setBatchEntries batchEntries].
    unfold spliceOne. split; [|split].
    + rewrite length_app, length_firstn, length_skipn. lia.
    + intros i Hi. rewrite nth_error_app1 by (rewrite length_firstn; lia).
      rewrite nth_error_firstn. apply Nat.ltb_lt in Hi. now rewrite Hi.
    + intros i Hi. rewrite nth_error_app2 by (rewrite length_firstn; lia).
      rewrite length_firstn, nth_error_skipn. f_equal. lia.
  - intros L. destruct (1 <? length (batchEntries st)); [|reflexivity]. simpl.
    unfold spliceOne. rewrite firstn_all2 by lia. rewrite skipn_all2 by lia. apply app_nil_r.
  - intros N. simpl. rewrite length_app. simpl.
    assert (L : (1 <? length (batchEntries st) + 1) = true).
    { apply Nat.ltb_lt. destruct (batchEntries st); [congruence | simpl; lia]. }
    rewrite L. simpl. apply spliceOne_last.
Qed.

Lemma assignAt_lookup (index : nat) (u : EntryUpdate) (entries : list BatchEntry.t) :
  match assignAt index u entries with
  | None => length entries <= index
  | Some newEntries =>
      index < length entries
      /\ length newEntries = length entries
      /\ nth_error newEntries index = option_map (applyUpdate u) (nth_error entries index)
      /\ (forall i, i <> index -> nth_error newEntries i = nth_error entries i)
  end.
Proof.
  revert index; induction entries as [|e l IH]; intros [|k]; simpl; try lia.
  - repeat split; try lia. intros [|i] H; [congruence | reflexivity].
  - specialize (IH k). destruct (assignAt k u l) as [l'|]; simpl; [|lia].
    destruct IH as (A & B & C & D). repeat split; try lia; auto.
    intros [|i] H; [reflexivity | apply D; congruence].
Qed.

(** X19. [updateBatchEntry] throws for an index past the end of the entries
    and changes nothing then.  For an index of the list it marks the form as
    having new entries and rewrites the one field of the one entry: the list
    keeps its length, every other entry is as before, and the stored codes
    are untouched. *)
Theorem updateBatchEntry_behaviour (index : nat) (u : EntryUpdate) (st : State) :
  match updateBatchEntry index u st with
  | None => length (batchEntries st) <= index
  | Some st' =>
      index < length (batchEntries st)
      /\ hasNewEntries st' = true
      /\ batchCodes st' = batchCodes st
      /\ length (batchEntries st') = length (batchEntries st)
      /\ nth_error (batchEntries st') index
         = option_map (applyUpdate u) (nth_error (batchEntries st) index)
      /\ (forall i, i <> index ->
            nth_error (batchEntries st') i = nth_error (batchEntries st) i)
  end.
Proof.
  unfold updateBatchEntry. pose proof (assignAt_lookup index u (batchEntries st)) as H.
  destruct (assignAt index u (batchEntries st)) as [l|]; [|exact H].
  destruct H as (A & B & C & D). simpl. repeat split; auto.
Qed.

(** ** Clearing and switching the mode *)

(** X20. After [resetBatchQR], and after [toggleMode] to the batch or the
    promo-link mode, no code is stored and the form holds one blank entry: a
    batch run then calls the encoder not at all and ends with [Please enter
    content for at least one QR code].  Switching to the single mode clears
    the codes and keeps the entries. *)
Theorem nothing_to_encode_after_clearing (rt : JSRuntime)
  (toDataURL : jsstring -> option jsstring) (c : Component.t) (newMode : Mode) :
  let blank st :=
    batchCodes st = [] /\ batchEntries st = [BatchEntry.mk [] text]
    /\ snd (generateBatchQRCodes toDataURL st) = []
    /\ error (fst (generateBatchQRCodes toDataURL st))
       = str "Please enter content for at least one QR code" in
  blank (Component.core (resetBatchQR c))
  /\ (newMode <> single -> blank (Component.core (toggleMode newMode c)))
  /\ mode (Component.core (toggleMode newMode c)) = newMode
  /\ batchCodes (Component.core (toggleMode newMode c)) = []
  /\ Component.qrCodeUrl (toggleMode newMode c) = []
  /\ batchEntries (Component.core (toggleMode single c)) = batchEntries (Component.core c).
Proof.
  cbv zeta. split; [|split].
  - repeat split.
  - intros N. destruct newMode; [congruence | repeat split ..].
  - destruct newMode; repeat split.
Qed.

(** ** The batch run: what a failure leaves undone *)

(** X15. When a batch run fails, the encoder was called for the kept
    entries in order up to the first one whose payload it rejects, and never
    after it: the entries behind the failing one are not encoded. *)
Theorem failed_batch_run_stops_at_first_rejection (rt : JSRuntime)
  (toDataURL : jsstring -> option jsstring) (st : State) :
  error (fst (generateBatchQRCodes toDataURL st)) = str "Failed to generate batch QR codes" ->
  exists done entry rest,
    Spec.retained (batchEntries st) = done ++ entry :: rest
    /\ Forall (fun e => toDataURL (entryPayload (mode st) e) <> None) done
    /\ toDataURL (entryPayload (mode st) entry) = None
    /\ snd (generateBatchQRCodes toDataURL st)
       = map (entryPayload (mode st)) (done ++ [entry]).
Proof.
  unfold generateBatchQRCodes.
  destruct (negb (existsb _ (batchEntries st))); [discriminate|].
  destruct (batchLoop toDataURL (mode st) (batchEntries st) []) as [calls [results|]] eqn:L;
    [discriminate|].
  intros _. apply batchLoop_rejected in L. exact L.
Qed.

Lemma failed_batch_run_stops_at_first_rejection_witness :
  snd (generateBatchQRCodes rejectsB
         (mkState batch
            [BatchEntry.mk (str "a") text; BatchEntry.mk (str "b") text;
             BatchEntry.mk (str "c") text]
            [] [] false true false false png))
  = [str "a"; str "b"].
Proof.
  destruct (failed_batch_run_stops_at_first_rejection exampleRuntime rejectsB
              (mkState batch
                 [BatchEntry.mk (str "a") text; BatchEntry.mk (str "b") text;
                  BatchEntry.mk (str "c") text]
                 [] [] false true false false png) eq_refl)
    as (done & entry & rest & K & A & R & C).
  destruct done as [|d0 done]; simpl in K.
  - injection K as <- _. discriminate R.
  - injection K as <- K. destruct done as [|d1 done]; simpl in K.
    + injection K as <- _. exact C.
    + injection K as <- K. inversion A as [|? ? _ A']; subst.
      inversion A' as [|? ? B _]; subst. now contradiction B.
Defined.

Lemma form_entries_are_text_and_never_empty_witness :
  FormEntries [blankEntry]
  /\ [blankEntry] <> []
  /\ Forall (fun entry => BatchEntry.type entry = text) [blankEntry].
Proof.
  split; [apply FormInitial|].
  exact (form_entries_are_text_and_never_empty [blankEntry] FormInitial).
Defined.

(** ** The archive members *)

Section ArchiveMembers.
Context {rt : JSRuntime}.
Variable drawImage : jsstring -> option HTMLCanvasElement.

Lemma zipLoop_png (st : State) (codes : list BatchQRCode.t) :
  fileFormat st = png ->
  zipLoop drawImage st codes
  = (map (fun code => (zipFilename st code,
                        Base64Data (splitCommaSecond (BatchQRCode.dataUrl code)))) codes,
     true).
Proof.
  intros F. induction codes as [|code rest IH]; simpl; [reflexivity|].
  now rewrite F, IH.
Qed.

Lemma zipLoop_eps (st : State) (codes : list BatchQRCode.t) :
  fileFormat st = eps ->
  exists done,
    Forall2 (fun code file =>
               exists epsText, epsOf drawImage code = Some epsText
                               /\ file = (zipFilename st code, TextData epsText))
      done (fst (zipLoop drawImage st codes))
    /\ ((snd (zipLoop drawImage st codes) = true /\ codes = done)
        \/ (snd (zipLoop drawImage st codes) = false
            /\ exists code rest, codes = done ++ code :: rest /\ epsOf drawImage code = None)).
Proof.
  intros F. induction codes as [|code rest (done & HF & H)]; simpl.
  - exists []. split; [constructor | now left].
  - rewrite F. unfold epsOf in *.
    destruct (drawImage (BatchQRCode.dataUrl code)) as [canvas|] eqn:D.
    + destruct (convertCanvasToEPS canvas) as [epsText|] eqn:C.
      * destruct (zipLoop drawImage st rest) as [files ok]. simpl in *.
        exists (code :: done). split.
        -- constructor; [|exact HF]. exists epsText. rewrite D. auto.
        -- destruct H as [[-> ->] | [-> (c & r & -> & E)]]; [now left|].
           right. split; [reflexivity|]. now exists c, r.
      * exists []. split; [constructor|]. right. split; [reflexivity|].
        exists code, rest. rewrite D. auto.
    + exists []. split; [constructor|]. right. split; [reflexivity|].
      exists code, rest. rewrite D. auto.
Qed.

End ArchiveMembers.

(** X21. In the PNG format the archive gets one member for every code, in
    order, holding the part of its data URL after the first comma.  In the
    EPS format the members are the EPS texts of the codes' images, in order,
    up to the first code whose image cannot be loaded or read: the export
    stops there with a failure and adds no member for the codes behind it. *)
Theorem archive_members (rt : JSRuntime)
  (drawImage : jsstring -> option HTMLCanvasElement) (st : State) :
  (fileFormat st = png ->
   downloadAllQRCodesAsZip drawImage st
   = (map (fun code => (zipFilename st code,
                         Base64Data (splitCommaSecond (BatchQRCode.dataUrl code))))
        (batchCodes st), true))
  /\ (fileFormat st = eps ->
      exists done,
        Forall2 (fun code file =>
                   exists epsText, epsOf drawImage code = Some epsText
                                   /\ file = (zipFilename st code, TextData epsText))
          done (fst (downloadAllQRCodesAsZip drawImage st))
        /\ ((snd (downloadAllQRCodesAsZip drawImage st) = true /\ batchCodes st = done)
            \/ (snd (downloadAllQRCodesAsZip drawImage st) = false
                /\ exists code rest,
                     batchCodes st = done ++ code :: rest /\ epsOf drawImage code = None))).
Proof.
  unfold downloadAllQRCodesAsZip. split; intros F.
  - destruct (batchCodes st) as [|code rest] eqn:E; [reflexivity|].
    now apply zipLoop_png.
  - destruct (batchCodes st) as [|code rest] eqn:E.
    + exists []. split; [constructor | now left].
    + now apply zipLoop_eps.
Qed.

Lemma archive_members_witness :
  fileFormat defaultNameState = png
  /\ downloadAllQRCodesAsZip (fun _ => None) defaultNameState
     = ([(str "https___example_com_path_url.png", Base64Data (Some (str "AAAA")))], true)
  /\ map fst (fst (downloadAllQRCodesAsZip loadsFirstOnly epsExportState)) = [str "a.eps"]
  /\ snd (downloadAllQRCodesAsZip loadsFirstOnly epsExportState) = false.
Proof.
  split; [reflexivity|]. split; [|split; reflexivity].
  exact (proj1 (archive_members exampleRuntime (fun _ => None) defaultNameState) eq_refl).
Defined.
